(** * Tyre scraping: a shallow embedding of [main.py] and of the season
    mapping of [playwright_bythjul_test.py]

    The first half of the file is the embedding, laid out as the Python
    sources are:

    - [Text]: the [str] methods the scrapers call ([strip], [split],
      [join], [capitalize], [lower], [replace], [in]);
    - [Py]: computations that return, raise, or are still running;
    - [Markup]: what [BeautifulSoup] and [json.loads] find in a page;
    - [Machine]: the scraper object and what surrounds it (the clock, the
      [tyres] table, the trace of what a run does to the outside);
    - [Base]: the class [TyreScraper];
    - [National]: the class [NationalTyreExtractor];
    - [Bythjul]: the season mapping of the experimental script;
    - [Dexel]: the class [DexelScraper], driven through a browser whose
      contexts live in a store keyed by identifier;
    - [Wording], [Paging], [Relations]: the vocabulary of the statements;
    - [Fixtures]: cards, servers and a small site to run the code on;
    - [Accounts], [Words], [Browsing], [Searches]: the vocabulary of the
      further properties (log lines against rows, words and stripped
      strings, what the browser engine leaves alone, the search pages of
      site B), with their fixtures in [MoreFixtures].

    The second half holds the facts proved about it: first those on
    the string methods, the table, the cards, the fetcher, discovery,
    pagination and browser contexts, then further properties of the
    same code ([FetchMore] to [PagingMore]).

    Text model.  A Python [str] is modelled by a Rocq [string].  White
    space and letter case follow Python on the ASCII range, which is
    what the two sites serve in the fields read here; a character
    outside that range is carried as its UTF-8 bytes, is never white
    space and has no case.

    Time model.  [time.monotonic()] is read from a rational clock that
    only the HTTP request and [time.sleep] advance.

    Outside world.  The HTTP server, the status check of [requests], the
    browser and the site it shows are parameters ([Web], [Dexel.Site]):
    every theorem holds whatever they are, and the fixtures instantiate
    them. *)

From Stdlib Require Import ZArith QArith Lqa String Ascii List Bool Lia.
From Stdlib Require Import DecimalString.
From stdpp Require Import base list strings gmap.

Set Warnings "-register-all".

(* ================================================================== *)
(** * Python string methods *)
(* ================================================================== *)

Module Text.
(** [str.isspace] on one ASCII character: TAB, LF, VT, FF, CR, the four
    separators FS GS RS US, and the space. *)
Definition is_space (c : ascii) : bool :=
  let n := N_of_ascii c in
  ((9 <=? n) && (n <=? 13) || (28 <=? n) && (n <=? 32))%N.

Definition is_upper (c : ascii) : bool :=
  let n := N_of_ascii c in ((65 <=? n) && (n <=? 90))%N.

Definition is_lower (c : ascii) : bool :=
  let n := N_of_ascii c in ((97 <=? n) && (n <=? 122))%N.


Definition lower_char (c : ascii) : ascii :=
  if is_upper c then ascii_of_N (N_of_ascii c + 32) else c.

Definition upper_char (c : ascii) : ascii :=
  if is_lower c then ascii_of_N (N_of_ascii c - 32) else c.

(** [s.lower()] *)
Fixpoint lower (s : string) : string :=
  match s with
  | EmptyString => EmptyString
  | String c r => String (lower_char c) (lower r)
  end.

(** [s.capitalize()]: the first character upper-cased, every other
    character lower-cased. *)
Definition capitalize (s : string) : string :=
  match s with
  | EmptyString => EmptyString
  | String c r => String (upper_char c) (lower r)
  end.

(** [s.lstrip()] *)
Fixpoint lstrip (s : string) : string :=
  match s with
  | EmptyString => EmptyString
  | String c r => if is_space c then lstrip r else s
  end.

Definition is_empty (s : string) : bool :=
  match s with EmptyString => true | String _ _ => false end.

(** [s.rstrip()] *)
Fixpoint rstrip (s : string) : string :=
  match s with
  | EmptyString => EmptyString
  | String c r =>
      let r' := rstrip r in
      if is_space c && is_empty r' then EmptyString else String c r'
  end.

(** [s.strip()] *)
Definition strip (s : string) : string := rstrip (lstrip s).

(** [s.split()] with no separator: the maximal runs of non-space
    characters, in order. *)
Fixpoint split (s : string) : list string :=
  match s with
  | EmptyString => []
  | String c r =>
      if is_space c then split r
      else match r with
           | EmptyString => [String c EmptyString]
           | String d _ =>
               if is_space d then String c EmptyString :: split r
               else match split r with
                    | w :: ws => String c w :: ws
                    | [] => [String c EmptyString]
                    end
           end
  end.

(** [sep.join(words)] *)
Fixpoint join (sep : string) (words : list string) : string :=
  match words with
  | [] => EmptyString
  | [w] => w
  | w :: ws => w +:+ sep +:+ join sep ws
  end.

(** [s.replace(" ", "")]: every U+0020 removed. *)
Fixpoint remove_spaces (s : string) : string :=
  match s with
  | EmptyString => EmptyString
  | String c r =>
      if Ascii.eqb c " "%char then remove_spaces r
      else String c (remove_spaces r)
  end.

(** [sub in s] *)
Fixpoint contains (sub s : string) : bool :=
  String.prefix sub s ||
  match s with
  | EmptyString => false
  | String _ r => contains sub r
  end.


(** No upper-case letter occurs in [s]. *)
Fixpoint all_lowercase (s : string) : bool :=
  match s with
  | EmptyString => true
  | String c r => negb (is_upper c) && all_lowercase r
  end.

End Text.

(* ================================================================== *)
(** * Raising computations over a mutable state *)
(* ================================================================== *)

Module Py.

(** The exceptions the two scrapers can meet.  [RequestException] is
    what [requests] raises (connection failure, or [raise_for_status]),
    [RuntimeError] what [fetch_html_timed] turns it into; the others come
    from a method called on [None], a missing attribute or index, a bad
    JSON text, and a browser affordance that never shows up. *)
Inductive exn :=
| AttributeError
| KeyError
| IndexError
| TypeError
| JSONDecodeError
| RequestException (url : string)
| RuntimeError (url : string)
| TimeoutError.

(** A call returns, raises, or (for the [while True] loop, which the
    model runs on fuel) is still running when the fuel is spent. *)
Inductive result (A : Type) :=
| Ok (a : A)
| Raise (e : exn)
| OutOfFuel.

Arguments Ok {A} a.
Arguments Raise {A} e.
Arguments OutOfFuel {A}.

Definition M (S A : Type) : Type := S -> result A * S.

Definition ret {S A} (a : A) : M S A := fun st => (Ok a, st).

Definition bind {S A B} (m : M S A) (k : A -> M S B) : M S B :=
  fun st =>
    match m st with
    | (Ok a, st') => k a st'
    | (Raise e, st') => (Raise e, st')
    | (OutOfFuel, st') => (OutOfFuel, st')
    end.

Definition raise {S A} (e : exn) : M S A := fun st => (Raise e, st).

Definition out_of_fuel {S A} : M S A := fun st => (OutOfFuel, st).

Definition get {S} : M S S := fun st => (Ok st, st).

Definition modify {S} (f : S -> S) : M S unit := fun st => (Ok tt, f st).

(** [for x in xs: body(x)] *)
Fixpoint for_each {S A} (xs : list A) (body : A -> M S unit) : M S unit :=
  match xs with
  | [] => ret tt
  | x :: rest => bind (body x) (fun _ => for_each rest body)
  end.

(** [[f(x) for x in xs]] *)
Fixpoint map_m {S A B} (f : A -> M S B) (xs : list A) : M S (list B) :=
  match xs with
  | [] => ret []
  | x :: rest =>
      bind (f x) (fun y => bind (map_m f rest) (fun ys => ret (y :: ys)))
  end.

(** Whatever [m] does, returning or raising, it takes a state to one
    that [R] relates to it. *)
Definition keeps {S A} (R : S -> S -> Prop) (m : M S A) : Prop :=
  forall st, R st (snd (m st)).

(** A method called on a value that may be [None]. *)
Definition not_none {S A} (o : option A) : M S A :=
  match o with
  | Some a => ret a
  | None => raise AttributeError
  end.

End Py.

Import Py.

Declare Scope py_scope.
Delimit Scope py_scope with py.
Notation "x <- m ;; k" := (Py.bind m (fun x => k))
  (at level 100, m at next level, right associativity) : py_scope.
Notation "m ;; k" := (Py.bind m (fun _ => k))
  (at level 100, right associativity) : py_scope.
Open Scope py_scope.

(* ================================================================== *)
(** * Parsed documents *)
(* ================================================================== *)

(** What [BeautifulSoup] and [json.loads] hand to the scrapers: for each
    selector the code uses, what it finds.  An [option] is a lookup that
    can come back [None] ([select_one], [find], [Tag.get]). *)
Module Markup.

Inductive json :=
| JNull
| JBool (b : bool)
| JNumber (q : Q)
| JString (s : string)
| JArray (items : list json)
| JObject (members : list (string * json)).

(** [dict.get(key)] on the members of a parsed object, in document
    order: [json.loads] keeps the last value of a repeated key. *)
Fixpoint dict_get (key : string) (members : list (string * json))
  : option json :=
  match members with
  | [] => None
  | (k, v) :: rest =>
      match dict_get key rest with
      | Some later => Some later
      | None => if String.eqb k key then Some v else None
      end
  end.

(** [div.detailArea.tf-title-tooltip-box] of a site A card: the [value]
    of [input[name="brand"]] and of [input[name="pattern"]]. *)
Record DetailArea := {
  brand_input : option (option string);
  pattern_input : option (option string)
}.

(** [div.box] of a site A card and its [data-prices] attribute. *)
Inductive box_prices :=
| NoBox
| NoPricesAttribute
| InvalidJSON
| Payload (j : json).

(** One [div.tkf-product]. *)
Record DexelCard := {
  detail_area : option DetailArea;
  para_text : option string;
  tyre_icon : option (option string);
  box : box_prices
}.

(** [a[id*="hypPattern"]] of a site B card: its text, and the text of
    the [p] that follows the [p] enclosing it ([None]: no enclosing [p];
    [Some None]: no following [p]). *)
Record PatternLink := {
  link_text : string;
  size_paragraph : option (option string)
}.

(** One [div[id*="TyreResults_rptTyres_divTyre_"]]. *)
Record NationalCard := {
  data_brand : option string;
  hypPattern : option PatternLink;
  data_tyre_season : option string;
  data_price : option string
}.

Record Soup := {
  (** [select('div.tkf-product')] *)
  dexel_products : list DexelCard;
  (** [href] of each [a[id*="hypBranchName"]] *)
  branch_links : list (option string);
  (** text of [find("span", itemprop="postalCode")] *)
  postal_code : option string;
  (** [select('div[id*="TyreResults_rptTyres_divTyre_"]')] *)
  national_tyres : list NationalCard
}.

End Markup.

Import Markup.

(* ================================================================== *)
(** * The machine the scrapers run on *)
(* ================================================================== *)

Module Machine.

(** A size input [(width, aspect_ratio, rim_size)]. *)
Definition query : Type := Z * Z * Z.

(** A row of the [tyres] table (the [id] column left to the engine). *)
Record Row := {
  website_name : string;
  tyre_brand : string;
  tyre_pattern : string;
  tyre_size : string;
  seasonality : string;
  price : string
}.

(** [.nth(i)] and [.last] on the links of the pagination footer. *)
Inductive locator :=
| Nth (i : Z)
| LastOf.

(** What the site A engine does to a page. *)
Inductive action :=
| Goto (url : string)
| ClickRole (role name : string) (nth : option Z)
| SelectDropdown (selector value : string)
| WaitForTimeout (ms : Z)
| ClickPagination (l : locator).

(** The messages written to [tyres.log], by their arguments. *)
Inductive log_entry :=
| AddingTyre (website brand pattern size season cost : string)
| OnlyOnePage (inputs : query)
| ScrapingBranch (branch : nat)
| ScrapingNewInput (inputs : query)
| ScrapingComplete
| StartingPostcodes
| PostcodesExtracted (n : nat)
| ScrapingPostcode (postcode : string)
| ScrapingInputs (inputs : query).

(** Everything a run does to the outside, in order. *)
Inductive event :=
| Logged (e : log_entry)
| Requested (url : string) (status : option Z) (completed : Q)
| Slept (seconds : Q)
| Dumped (file : string) (lines : list string)
| Launched
| NewContext (c : nat)
| NewPage (c : nat)
| Did (c : nat) (a : action)
| ReadContent (c : nat)
| ClosedContext (c : nat)
| ClosedBrowser.

(** [requests.get]: it takes some time, then raises or answers. *)
Inductive reply :=
| ConnectionError (latency : Q)
| Response (latency : Q) (status : Z) (body : Soup).

Definition latency_of (r : reply) : Q :=
  match r with
  | ConnectionError latency => latency
  | Response latency _ _ => latency
  end.

(** The HTTP capability: what the [n]-th request of the run, to [url],
    gets, and the statuses [raise_for_status] raises on. *)
Record Web := {
  serve : nat -> string -> reply;
  status_raises : Z -> bool
}.

(** The scraper object ([website], [last_request_time]) and its
    surroundings: the monotonic clock, the number of requests sent, the
    table, and the trace of events. *)
Record State := {
  website : string;
  last_request_time : option Q;
  clock : Q;
  served : nat;
  db : list Row;
  trace : list event
}.

Definition tick (d : Q) (st : State) : State :=
  {| website := website st; last_request_time := last_request_time st;
     clock := (clock st + d)%Q; served := served st; db := db st;
     trace := trace st |}.

Definition stamp (t : Q) (st : State) : State :=
  {| website := website st; last_request_time := Some t;
     clock := clock st; served := served st; db := db st;
     trace := trace st |}.

Definition count_request (st : State) : State :=
  {| website := website st; last_request_time := last_request_time st;
     clock := clock st; served := S (served st); db := db st;
     trace := trace st |}.

Definition emit (e : event) (st : State) : State :=
  {| website := website st; last_request_time := last_request_time st;
     clock := clock st; served := served st; db := db st;
     trace := trace st ++ [e] |}.

Definition append_row (r : Row) (st : State) : State :=
  {| website := website st; last_request_time := last_request_time st;
     clock := clock st; served := served st; db := db st ++ [r];
     trace := trace st |}.

(** [TyreScraper.__init__] followed by the subclass's assignment of
    [website], on a machine whose clock reads [t0]. *)
Definition init (name : string) (t0 : Q) : State :=
  {| website := name; last_request_time := None; clock := t0;
     served := 0%nat; db := []; trace := [] |}.

End Machine.

Import Machine.

(* ================================================================== *)
(** * class TyreScraper *)
(* ================================================================== *)

Module Base.

(** [time.monotonic()] *)
Definition monotonic : M State Q := st <- get ;; ret (clock st).

(** [time.sleep(seconds)] *)
Definition sleep (seconds : Q) : M State unit :=
  modify (tick seconds) ;; modify (emit (Slept seconds)).

(** [logger.info(...)] *)
Definition log_info (e : log_entry) : M State unit := modify (emit (Logged e)).

(** Truth value of a [float]: every value but zero. *)
Definition truthy (t : Q) : bool := negb (Qeq_bool t 0).

(** [try: body except requests.RequestException as e: handler] *)
Definition try_except {A} (body : M State A) (handler : string -> M State A)
  : M State A :=
  fun st =>
    match body st with
    | (Raise (RequestException u), st') => handler u st'
    | other => other
    end.

(** [fetch_html]: the request, then the timestamp, then the status
    check. *)
Definition fetch_html (web : Web) (url : string) : M State Soup :=
  st <- get ;;
  match serve web (served st) url with
  | ConnectionError latency =>
      modify (tick latency) ;;
      modify count_request ;;
      now <- monotonic ;;
      modify (emit (Requested url None now)) ;;
      raise (RequestException url)
  | Response latency status body =>
      modify (tick latency) ;;
      modify count_request ;;
      now <- monotonic ;;
      modify (emit (Requested url (Some status) now)) ;;
      modify (stamp now) ;;
      if status_raises web status then raise (RequestException url)
      else ret body
  end.

(** [fetch_html_timed] *)
Definition fetch_html_timed (web : Web) (url : string) : M State Soup :=
  try_except
    (st <- get ;;
     match last_request_time st with
     | Some t =>
         if truthy t then
           now <- monotonic ;;
           let time_elapsed := (now - t)%Q in
           if Qle_bool time_elapsed 1 then sleep (1 - time_elapsed)%Q
           else ret tt
         else ret tt
     | None => ret tt
     end ;;
     fetch_html web url)
    (fun _ => raise (RuntimeError url)).

(** [add_to_database] *)
Definition add_to_database (brand pattern size season cost : string)
  : M State unit :=
  st <- get ;;
  log_info (AddingTyre (website st) brand pattern size season cost) ;;
  modify (append_row {| website_name := website st; tyre_brand := brand;
                        tyre_pattern := pattern; tyre_size := size;
                        seasonality := Text.lower season; price := cost |}).

End Base.

(** The five arguments a normalizer passes to [add_to_database]. *)
Record Observation := {
  brand : string;
  pattern : string;
  size : string;
  season : string;
  cost : string
}.

(** Reading one card touches no state: it returns or raises. *)
Definition reading (A : Type) : Type := M unit A.

Definition run_reading {A} (m : reading A) : result A := fst (m tt).

Definition lift_reading {S A} (m : reading A) : M S A :=
  fun st => (run_reading m, st).

(** [str(n)] of an [int] *)
Definition str_of_int (n : Z) : string := NilZero.string_of_int (Z.to_int n).

(* ================================================================== *)
(** * class NationalTyreExtractor *)
(* ================================================================== *)

Module National.

Import Base.

Definition name : string := "National".

(** The body of the inner [for individual_tyre in ...] of
    [extract_data], up to the call of [add_to_database]. *)
Definition read_card (individual_tyre : NationalCard) : reading Observation :=
  brand_attr <- not_none (data_brand individual_tyre) ;;
  let brand := Text.strip brand_attr in
  pattern <- not_none (hypPattern individual_tyre) ;;
  parent <- not_none (size_paragraph pattern) ;;
  size <- not_none parent ;;
  let pattern := Text.strip (link_text pattern) in
  let size := Text.strip size in
  season_attr <- not_none (data_tyre_season individual_tyre) ;;
  let season := Text.strip season_attr in
  price_attr <- not_none (data_price individual_tyre) ;;
  let price := Text.strip price_attr in
  ret {| brand := brand; pattern := pattern; size := size;
         season := season; cost := price |}.

Definition record (o : Observation) : M State unit :=
  add_to_database (brand o) (pattern o) (size o) (season o) (cost o).

(** [postcode.text.strip()] then [replace(" ", "")] *)
Definition clean_postcode (text : string) : string :=
  Text.remove_spaces (Text.strip text).

(** [f"https://www.national.co.uk/{link['href']}"] *)
Definition branch_url (href : string) : string :=
  "https://www.national.co.uk/" +:+ href.

Definition branch_site (link : option string) : M State string :=
  match link with
  | Some href => ret (branch_url href)
  | None => raise KeyError
  end.

Definition read_postcode (web : Web) (branch_site : string) : M State string :=
  individual_branch_soup <- fetch_html web branch_site ;;
  span <- not_none (postal_code individual_branch_soup) ;;
  ret (clean_postcode span).

(** [list(set(postcodes_list))]: the elements of the set, once each, in
    an order Python leaves open (here: the order of [elements]). *)
Definition distinct (postcodes_list : list string) : list string :=
  elements (list_to_set postcodes_list : gset string).

(** [find_branch_postcodes].  The loop that appends to [postcodes_list]
    is [map_m]. *)
Definition find_branch_postcodes (web : Web) : M State (list string) :=
  log_info StartingPostcodes ;;
  branches_page_soup <- fetch_html web "https://www.national.co.uk/branches" ;;
  list_of_branch_sites <- map_m branch_site (branch_links branches_page_soup) ;;
  postcodes_list <- map_m (read_postcode web) list_of_branch_sites ;;
  log_info (PostcodesExtracted (length postcodes_list)) ;;
  ret (distinct postcodes_list).

Definition search_url (inputs : query) (postcode : string) : string :=
  let '(width, aspect_ratio, rim_size) := inputs in
  "https://www.national.co.uk/tyres-search/" +:+ str_of_int width +:+ "-"
    +:+ str_of_int aspect_ratio +:+ "-" +:+ str_of_int rim_size
    +:+ "?pc=" +:+ postcode.

(** [extract_data] *)
Definition extract_data (web : Web) (inputs : list query)
    (postcodes : list string) : M State unit :=
  for_each postcodes (fun postcode =>
    log_info (ScrapingPostcode postcode) ;;
    for_each inputs (fun input =>
      log_info (ScrapingInputs input) ;;
      tyre_soup <- fetch_html web (search_url input postcode) ;;
      for_each (national_tyres tyre_soup) (fun individual_tyre =>
        o <- lift_reading (read_card individual_tyre) ;;
        record o))).

(** [json.dump(postcodes, f)] into [postcodes.json] *)
Definition dump_postcodes (postcodes : list string) : M State unit :=
  modify (emit (Dumped "postcodes.json" postcodes)).

(** [scrape] *)
Definition scrape (web : Web) (inputs : list query) : M State unit :=
  postcodes <- find_branch_postcodes web ;;
  dump_postcodes postcodes ;;
  extract_data web inputs postcodes.

End National.

(* ================================================================== *)
(** * The season mapping of the bythjul script *)
(* ================================================================== *)

Module Bythjul.


End Bythjul.

(* ================================================================== *)
(** * class DexelScraper *)
(* ================================================================== *)

Module Dexel.

Import Base.

Definition name : string := "Dexel".

(** [div.custom-pagination]: the text of each [a] in it, and the [class]
    attribute of each [li] in it, in document order. *)
Record Footer := {
  links : list string;
  items : list (option string)
}.

(** The site as the browser shows it.  [page] is whatever one tab is
    showing; [blank] is the tab of a new context; [act] is the effect of
    an action on a tab ([None]: the affordance is not there and
    playwright raises); the other fields are what the engine reads off a
    tab. *)
Record Site (page : Type) := {
  blank : page;
  act : page -> action -> option page;
  content : page -> Soup;
  footer : page -> Footer;
  branch_buttons : page -> nat
}.

Arguments blank {page} s.
Arguments act {page} s p a.
Arguments content {page} s p.
Arguments footer {page} s p.
Arguments branch_buttons {page} s p.

(** The scraper's machine together with the browser: the contexts that
    are open, each with the tab it holds, and the next context
    identifier. *)
Record Session (page : Type) := {
  machine : State;
  next_context : nat;
  contexts : gmap nat page
}.

Arguments machine {page} s.
Arguments next_context {page} s.
Arguments contexts {page} s.

Section Engine.

Context {page : Type}.
Variable site : Site page.

Definition on_machine (f : State -> State) (s : Session page) : Session page :=
  {| machine := f (machine s); next_context := next_context s;
     contexts := contexts s |}.

Definition on_contexts (f : gmap nat page -> gmap nat page)
    (s : Session page) : Session page :=
  {| machine := machine s; next_context := next_context s;
     contexts := f (contexts s) |}.

Definition bump_context (s : Session page) : Session page :=
  {| machine := machine s; next_context := S (next_context s);
     contexts := contexts s |}.

(** A method of the base class, run on the session's machine. *)
Definition lift_machine {A} (m : M State A) : M (Session page) A :=
  fun s => let '(r, st) := m (machine s) in (r, on_machine (fun _ => st) s).

Definition happen (e : event) : M (Session page) unit :=
  modify (on_machine (emit e)).

(** [browser.new_context()] *)
Definition new_context : M (Session page) nat :=
  s <- get ;;
  let c := next_context s in
  modify bump_context ;;
  happen (NewContext c) ;;
  ret c.

(** [context.new_page()] *)
Definition new_page (c : nat) : M (Session page) unit :=
  modify (on_contexts (insert c (blank site))) ;;
  happen (NewPage c).

(** [context.close()] *)
Definition close_context (c : nat) : M (Session page) unit :=
  modify (on_contexts (delete c)) ;;
  happen (ClosedContext c).

(** The tab a page handle points to. *)
Definition showing (c : nat) : M (Session page) page :=
  s <- get ;;
  match contexts s !! c with
  | Some p => ret p
  | None => raise TimeoutError
  end.

(** Any call that acts on the page. *)
Definition perform (c : nat) (a : action) : M (Session page) unit :=
  p <- showing c ;;
  happen (Did c a) ;;
  match act site p a with
  | Some p' => modify (on_contexts (insert c p'))
  | None => raise TimeoutError
  end.

(** [page.content()], parsed *)
Definition page_content (c : nat) : M (Session page) Soup :=
  p <- showing c ;;
  happen (ReadContent c) ;;
  ret (content site p).

(** [select_dropdown] *)
Definition select_dropdown (c : nat) (dropdown selection : string)
  : M (Session page) unit :=
  perform c (SelectDropdown dropdown selection).

(** [page.goto(url)] *)
Definition goto (c : nat) (url : string) : M (Session page) unit :=
  perform c (Goto url).

(** [page.get_by_role(role, name = name).click()], with [.nth(i)] before
    the click when [nth] is [Some i]. *)
Definition click_role (c : nat) (role name : string) (nth : option Z)
  : M (Session page) unit :=
  perform c (ClickRole role name nth).

(** [page.wait_for_timeout(ms)] *)
Definition wait_for_timeout (c : nat) (ms : Z) : M (Session page) unit :=
  perform c (WaitForTimeout ms).

(** [nav_to_branch_page] *)
Definition nav_to_branch_page (c : nat) (input_tuple : query)
  : M (Session page) nat :=
  let '(width, aspect_ratio, rim_size) := input_tuple in
  goto c "http://www.dexel.co.uk/" ;;
  click_role c "link" "Search by Tyre Size." None ;;
  wait_for_timeout c 1000 ;;
  select_dropdown c "select.width_list" (str_of_int width) ;;
  wait_for_timeout c 1000 ;;
  select_dropdown c "select.profile_list" (str_of_int aspect_ratio) ;;
  wait_for_timeout c 1000 ;;
  select_dropdown c "select.size_list" (str_of_int rim_size) ;;
  wait_for_timeout c 1000 ;;
  click_role c "link" "Search " (Some 0%Z) ;;
  wait_for_timeout c 1000 ;;
  ret c.

(** [json.loads(price_json).get("minimum_price").strip()] *)
Definition minimum_price (b : box_prices) : reading string :=
  parsed_price_json <-
    match b with
    | NoBox => raise AttributeError
    | NoPricesAttribute => raise TypeError
    | InvalidJSON => raise JSONDecodeError
    | Payload j => ret j
    end ;;
  match parsed_price_json with
  | JObject members =>
      match dict_get "minimum_price" members with
      | Some (JString s) => ret (Text.strip s)
      | _ => raise AttributeError
      end
  | _ => raise AttributeError
  end.

(** [value.strip().capitalize()], applied to the brand, the pattern and
    the season. *)
Definition clean (value : string) : string :=
  Text.capitalize (Text.strip value).

(** The body of the loop of [parse_html], up to the call of
    [add_to_database]. *)
Definition read_card (individual_tyre : DexelCard) : reading Observation :=
  info_div <- not_none (detail_area individual_tyre) ;;
  brand_el <- not_none (brand_input info_div) ;;
  brand_value <- not_none brand_el ;;
  let brand := clean brand_value in
  pattern_el <- not_none (pattern_input info_div) ;;
  pattern_value <- not_none pattern_el ;;
  let pattern := clean pattern_value in
  para <- not_none (para_text individual_tyre) ;;
  let size := Text.split (Text.strip para) in
  let size := Text.join " " (take 2 size) in
  icon <- not_none (tyre_icon individual_tyre) ;;
  title <- not_none icon ;;
  let season := clean title in
  minimum_price <- minimum_price (box individual_tyre) ;;
  ret {| brand := brand; pattern := pattern; size := size;
         season := season; cost := minimum_price |}.

Definition record (o : Observation) : M State unit :=
  add_to_database (brand o) (pattern o) (size o) (season o) (cost o).

(** [parse_html] *)
Definition parse_html (soup : Soup) : M (Session page) unit :=
  for_each (dexel_products soup) (fun individual_tyre =>
    o <- lift_reading (read_card individual_tyre) ;;
    lift_machine (record o)).

(** What one turn of the pagination loop decides after parsing. *)
Inductive decision :=
| StopOnePage
| Follow (l : locator)
| StopLastPage
| NoListItem.

(** The three tests of the loop, on the footer of the current tab:
    no link at all; ['Last'] in the stripped text of the last link; the
    [class] of the last [li] equal to ['active']. *)
Definition next_action (f : Footer) : decision :=
  match last (links f) with
  | None => StopOnePage
  | Some text =>
      if Text.contains "Last" (Text.strip text) then
        let number_of_links := Z.of_nat (length (links f)) in
        Follow (Nth (number_of_links - 2))
      else
        match last (items f) with
        | None => NoListItem
        | Some class =>
            if decide (class = Some "active") then StopLastPage
            else Follow LastOf
        end
  end.

(** The [while True] of [scrape_branch]. *)
Fixpoint paginate (fuel : nat) (c : nat) (inputs : query)
  : M (Session page) unit :=
  match fuel with
  | O => out_of_fuel
  | S fuel' =>
      html_individual_page <- page_content c ;;
      parse_html html_individual_page ;;
      p <- showing c ;;
      match next_action (footer site p) with
      | StopOnePage => happen (Logged (OnlyOnePage inputs))
      | Follow l => perform c (ClickPagination l) ;; paginate fuel' c inputs
      | StopLastPage => ret tt
      | NoListItem => raise TimeoutError
      end
  end.

(** [scrape_branch] *)
Definition scrape_branch (fuel : nat) (c : nat)
    (branch_number_to_select : nat) (inputs : query)
  : M (Session page) unit :=
  click_role c "button" "Select This Branch"
    (Some (Z.of_nat branch_number_to_select)) ;;
  wait_for_timeout c 15000 ;;
  paginate fuel c inputs.

(** The body of the inner loop of [scrape]: one (branch, input) pair. *)
Definition scrape_pair (fuel : nat) (branch : nat) (input_tuple : query)
  : M (Session page) unit :=
  happen (Logged (ScrapingNewInput input_tuple)) ;;
  context <- new_context ;;
  new_page context ;;
  page_handle <- nav_to_branch_page context input_tuple ;;
  scrape_branch fuel page_handle branch input_tuple ;;
  close_context context.

(** [scrape] *)
Definition scrape (fuel : nat) (inputs : list query)
  : M (Session page) unit :=
  happen Launched ;;
  temp_context <- new_context ;;
  new_page temp_context ;;
  first_input <- match inputs with
                 | i :: _ => ret i
                 | [] => raise IndexError
                 end ;;
  temp_page <- nav_to_branch_page temp_context first_input ;;
  p <- showing temp_page ;;
  let branch_count := branch_buttons site p in
  close_context temp_context ;;
  for_each (seq 0 branch_count) (fun branch =>
    happen (Logged (ScrapingBranch branch)) ;;
    for_each inputs (scrape_pair fuel branch)) ;;
  happen (Logged ScrapingComplete) ;;
  happen ClosedBrowser.

End Engine.

(** A session that has just been set up: the scraper object of
    [DexelScraper()], no context open. *)
Definition start {page : Type} (t0 : Q) : Session page :=
  {| machine := init name t0; next_context := 0%nat; contexts := ∅ |}.

End Dexel.

(* ================================================================== *)
(** * The specification's vocabulary *)
(* ================================================================== *)

(** Notions the specification uses and the code does not compute; the
    theorems compare the code with them. *)
Module Wording.



Definition digit_value (c : ascii) : option N :=
  let n := N_of_ascii c in
  if ((48 <=? n) && (n <=? 57))%N then Some (n - 48)%N else None.

(** Reads digits with at most one decimal point: the digits as one
    number, and how many of them follow the point. *)
Fixpoint scan_price (s : string) (digits : N) (places : option nat)
  : option (N * nat) :=
  match s with
  | EmptyString => Some (digits, default 0%nat places)
  | String c r =>
      if Ascii.eqb c "."%char then
        match places with
        | None => scan_price r digits (Some 0%nat)
        | Some _ => None
        end
      else
        match digit_value c with
        | Some d => scan_price r (10 * digits + d)%N (S <$> places)
        | None => None
        end
  end.

(** The amount a price string such as ["120.00"] advertises. *)
Definition price_value (s : string) : option Q :=
  match scan_price s 0%N None with
  | Some (digits, places) =>
      Some (Z.of_N digits # Z.to_pos (10 ^ Z.of_nat places))
  | None => None
  end.

(** [p] is not above [q], as amounts. *)
Definition price_le (p q : string) : Prop :=
  match price_value p, price_value q with
  | Some a, Some b => (a <= b)%Q
  | _, _ => False
  end.

(** "The minimum advertised price among the tiers" of a pricing
    payload: a price that no tier undercuts. *)
Definition minimum_among_tiers (members : list (string * json))
    (p : string) : Prop :=
  forall tier v,
    dict_get tier members = Some (JString v) -> price_le p (Text.strip v).

End Wording.

(* ================================================================== *)
(** * Fixtures *)
(* ================================================================== *)

Module Fixtures.

(** The pricing payload of the specification's example. *)
Definition prices_120 : json :=
  JObject [("minimum_price", JString "120.00");
           ("other_tier", JString "150.00")].

(** A payload whose [minimum_price] tier is not its cheapest tier. *)
Definition prices_mislabelled : json :=
  JObject [("minimum_price", JString "150.00");
           ("other_tier", JString "120.00")].

Definition dexel_card (brand pattern text title : string) (prices : json)
  : DexelCard :=
  {| detail_area := Some {| brand_input := Some (Some brand);
                            pattern_input := Some (Some pattern) |};
     para_text := Some text;
     tyre_icon := Some (Some title);
     box := Payload prices |}.

Definition pilot_sport : DexelCard :=
  dexel_card " michelin " "pilot sport 4" " 205/55  R16 91V Extra load "
             " summer " prices_120.


Definition mislabelled : DexelCard :=
  dexel_card "Michelin" "Primacy" "205/55 R16" "Summer" prices_mislabelled.

Definition national_card (brand pattern text season price : string)
  : NationalCard :=
  {| data_brand := Some brand;
     hypPattern := Some {| link_text := pattern;
                           size_paragraph := Some (Some text) |};
     data_tyre_season := Some season;
     data_price := Some price |}.

Definition ecocontact : NationalCard :=
  national_card " CONTINENTAL" " EcoContact 6 " " 205/55 R16 91V "
                "Summer" " 89.99 ".

Definition empty_soup : Soup :=
  {| dexel_products := []; branch_links := []; postal_code := None;
     national_tyres := [] |}.

(** [raise_for_status] as the specification's HTTP capability has it:
    it raises on every status outside 200..299. *)
Definition non_2xx (status : Z) : bool :=
  negb ((200 <=? status)%Z && (status <? 300)%Z).

(** A server whose first answer is a 503 after half a second, and
    which then answers 200 after a quarter of a second. *)
Definition flaky_web : Web :=
  {| serve := fun n _ =>
       match n with
       | O => Response (1 # 2) 503 empty_soup
       | _ => Response (1 # 4) 200 empty_soup
       end;
     status_raises := non_2xx |}.

(** A branch directory with the given branch links. *)
Definition directory (hrefs : list string) : Soup :=
  {| dexel_products := []; branch_links := Some <$> hrefs;
     postal_code := None; national_tyres := [] |}.

(** A branch page whose postal-code span reads [text]. *)
Definition branch_page (text : string) : Soup :=
  {| dexel_products := []; branch_links := []; postal_code := Some text;
     national_tyres := [] |}.

(** A server that answers every request at once with a 200: first the
    pages of [pages] in order, then pages with nothing on them. *)
Definition instant_web (pages : list Soup) : Web :=
  {| serve := fun n _ => Response 0 200 (default empty_soup (pages !! n));
     status_raises := non_2xx |}.

(** One branch, in Leeds. *)
Definition one_branch : Web :=
  instant_web [directory ["branch/leeds"]; branch_page " LS1 4AP "].

(** Four branches: three pages with one postcode, written three ways,
    and one page with another. *)
Definition four_branches : Web :=
  instant_web [directory ["branch/a"; "branch/b"; "branch/c"; "branch/d"];
               branch_page "LS1 4AP"; branch_page " LS1 4AP ";
               branch_page "LS14AP"; branch_page "M1 1AE"].

(** A result page with the given cards. *)
Definition results (cards : list DexelCard) : Soup :=
  {| dexel_products := cards; branch_links := []; postal_code := None;
     national_tyres := [] |}.

(** A small site A.  Tab 0 is blank, 10 the home page, 11 the size
    search, 12 the branch picker with two branches; tabs 1, 2 and 3 are
    the three result pages of either branch.  Page 1 shows the jump to
    the last page, page 2 no longer does, page 3 has its last list item
    active. *)
Definition three_pages : Dexel.Site nat :=
  {| Dexel.blank := 0%nat;
     Dexel.act := fun p a =>
       match a, p with
       | Goto "http://www.dexel.co.uk/", _ => Some 10%nat
       | ClickRole "link" "Search by Tyre Size." None, 10%nat => Some 11%nat
       | ClickRole "link" "Search " (Some 0%Z), 11%nat => Some 12%nat
       | ClickRole "button" "Select This Branch" (Some (0 | 1)%Z), 12%nat =>
           Some 1%nat
       | SelectDropdown _ _, 11%nat => Some 11%nat
       | WaitForTimeout _, _ => Some p
       | ClickPagination (Nth 3%Z), 1%nat => Some 2%nat
       | ClickPagination LastOf, 2%nat => Some 3%nat
       | _, _ => None
       end;
     Dexel.content := fun p =>
       match p with
       | 1%nat => results [pilot_sport]
       | 2%nat => results [mislabelled]
       | _ => results []
       end;
     Dexel.footer := fun p =>
       match p with
       | 1%nat =>
           {| Dexel.links := ["1"; "2"; "3"; "Next >"; " Last >> "];
              Dexel.items := [Some "active"; None; None; None; None] |}
       | 2%nat =>
           {| Dexel.links := ["<< First"; "< Prev"; "1"; "2"; "3"; "Next >"];
              Dexel.items := [None; None; None; Some "active"; None; None] |}
       | 3%nat =>
           {| Dexel.links := ["<< First"; "< Prev"; "1"; "2"];
              Dexel.items := [None; None; None; None; Some "active"] |}
       | _ => {| Dexel.links := []; Dexel.items := [] |}
       end;
     Dexel.branch_buttons := fun p =>
       match p with 12%nat => 2%nat | _ => 0%nat end |}.

End Fixtures.

(* ================================================================== *)
(** * Site A: result sets and what a run over them should leave *)
(* ================================================================== *)

(** The vocabulary of the pagination claims: when a footer leads on to a
    next page, when it marks the last page, what a chain of such pages
    is, and the rows and events a run over a chain is expected to
    produce. *)
Module Paging.

Import Dexel.

(** The row [add_to_database] stores for an observation. *)
Definition row_of (website : string) (o : Observation) : Row :=
  {| website_name := website; tyre_brand := brand o;
     tyre_pattern := pattern o; tyre_size := size o;
     seasonality := Text.lower (season o); price := cost o |}.

(** The log line [add_to_database] writes for an observation. *)
Definition line_of (website : string) (o : Observation) : event :=
  Logged (AddingTyre website (brand o) (pattern o) (size o) (season o)
            (cost o)).

(** The observations of the cards that can be read. *)
Definition observations (cards : list DexelCard) : list Observation :=
  flat_map (fun card =>
              match run_reading (read_card card) with
              | Ok o => [o]
              | _ => []
              end) cards.

(** Every card of the page can be read. *)
Definition readable (soup : Soup) : Prop :=
  Forall (fun card => exists o, run_reading (read_card card) = Ok o)
         (dexel_products soup).

Section OverASite.

Context {page : Type}.
Variable site : Site page.

(** The footer of [p] sends the loop on to [q]: either its last link
    reads as the jump to the last page and the link at [N - 2] leads to
    [q], or it does not, the last list item is not the active one, and
    the last link leads to [q]. *)
Definition leads_to (p q : page) : Prop :=
  exists text,
    last (links (footer site p)) = Some text /\
    ((Text.contains "Last" (Text.strip text) = true /\
      act site p (ClickPagination
                    (Nth (Z.of_nat (length (links (footer site p))) - 2)))
        = Some q) \/
     (Text.contains "Last" (Text.strip text) = false /\
      (exists class,
         last (items (footer site p)) = Some class /\
         class <> Some "active") /\
      act site p (ClickPagination LastOf) = Some q)).

(** The footer of [p] ends the loop: it has no link, or its last link
    is not the jump to the last page and its last list item is the
    active one. *)
Definition final (p : page) : Prop :=
  links (footer site p) = [] \/
  exists text,
    last (links (footer site p)) = Some text /\
    Text.contains "Last" (Text.strip text) = false /\
    last (items (footer site p)) = Some (Some "active").

(** A finite result set: pages each leading to the next, the last one
    final. *)
Inductive result_set : list page -> Prop :=
| result_set_last p : final p -> result_set [p]
| result_set_next p q rest :
    leads_to p q -> result_set (q :: rest) -> result_set (p :: q :: rest).

(** What the loop does after parsing [p], as events of context [c]. *)
Definition footer_events (c : nat) (inputs : query) (p : page) : list event :=
  match next_action (footer site p) with
  | StopOnePage => [Logged (OnlyOnePage inputs)]
  | Follow l => [Did c (ClickPagination l)]
  | StopLastPage | NoListItem => []
  end.

(** The events of one turn of the loop on page [p]: the content is
    read, a line is logged per card, the footer is acted on. *)
Definition page_events (c : nat) (website : string) (inputs : query)
    (p : page) : list event :=
  ReadContent c ::
  (line_of website <$> observations (dexel_products (content site p))) ++
  footer_events c inputs p.

(** The rows one turn of the loop stores for page [p]. *)
Definition page_rows (website : string) (p : page) : list Row :=
  row_of website <$> observations (dexel_products (content site p)).

(** The actions of [nav_to_branch_page], in order. *)
Definition nav_actions (input_tuple : query) : list action :=
  let '(width, aspect_ratio, rim_size) := input_tuple in
  [ Goto "http://www.dexel.co.uk/";
    ClickRole "link" "Search by Tyre Size." None;
    WaitForTimeout 1000;
    SelectDropdown "select.width_list" (str_of_int width);
    WaitForTimeout 1000;
    SelectDropdown "select.profile_list" (str_of_int aspect_ratio);
    WaitForTimeout 1000;
    SelectDropdown "select.size_list" (str_of_int rim_size);
    WaitForTimeout 1000;
    ClickRole "link" "Search " (Some 0%Z);
    WaitForTimeout 1000 ].

(** The tab a new context ends on after the actions [actions]. *)
Definition after_actions (actions : list action) (p : page) : option page :=
  foldl (fun tab a => tab ≫= fun p => act site p a) (Some p) actions.

(** The actions of one (branch, input) pair before the loop starts:
    [nav_to_branch_page], then the branch button with the given ordinal
    and the long wait. *)
Definition opening_actions (branch : nat) (input : query) : list action :=
  nav_actions input ++
  [ClickRole "button" "Select This Branch" (Some (Z.of_nat branch));
   WaitForTimeout 15000].

(** The pair (branch, input) goes well on the site and pages through
    [pages]: from a blank tab the opening actions all succeed and end on
    the first page of a result set whose pages can all be read. *)
Definition pair_pages (branch : nat) (input : query) (pages : list page)
  : Prop :=
  exists first rest,
    pages = first :: rest /\
    after_actions (opening_actions branch input) (blank site) = Some first /\
    result_set pages /\
    Forall (fun p => readable (content site p)) pages.

(** The events of a pair that goes well, in context [c]. *)
Definition pair_events (c : nat) (website : string) (branch : nat)
    (input : query) (pages : list page) : list event :=
  [Logged (ScrapingNewInput input); NewContext c; NewPage c] ++
  (Did c <$> opening_actions branch input) ++
  flat_map (page_events c website input) pages ++
  [ClosedContext c].

(** How often the content of the tab of context [c] is read, and how
    often a pagination link is clicked in it. *)
Definition reads (c : nat) (evs : list event) : nat :=
  length (List.filter (fun e => match e with
                                | ReadContent c' => Nat.eqb c' c
                                | _ => false
                                end) evs).

Definition clicks (c : nat) (evs : list event) : nat :=
  length (List.filter (fun e => match e with
                                | Did c' (ClickPagination _) => Nat.eqb c' c
                                | _ => false
                                end) evs).

(** The events and rows of the pairs of one branch, the first in
    context [c], the next in [c + 1], and so on; [pages_of] gives the
    result set of each pair. *)
Fixpoint pairs_events (c : nat) (website : string) (branch : nat)
    (pages_of : nat -> query -> list page) (inputs : list query)
  : list event :=
  match inputs with
  | [] => []
  | input :: rest =>
      pair_events c website branch input (pages_of branch input) ++
      pairs_events (S c) website branch pages_of rest
  end.

Fixpoint pairs_rows (website : string) (branch : nat)
    (pages_of : nat -> query -> list page) (inputs : list query)
  : list Row :=
  match inputs with
  | [] => []
  | input :: rest =>
      flat_map (page_rows website) (pages_of branch input) ++
      pairs_rows website branch pages_of rest
  end.

(** The same for the branches [branches], one after the other. *)
Fixpoint branches_events (c : nat) (website : string)
    (pages_of : nat -> query -> list page) (inputs : list query)
    (branches : list nat) : list event :=
  match branches with
  | [] => []
  | branch :: rest =>
      Logged (ScrapingBranch branch) ::
      pairs_events c website branch pages_of inputs ++
      branches_events (c + length inputs) website pages_of inputs rest
  end.

Fixpoint branches_rows (website : string)
    (pages_of : nat -> query -> list page) (inputs : list query)
    (branches : list nat) : list Row :=
  match branches with
  | [] => []
  | branch :: rest =>
      pairs_rows website branch pages_of inputs ++
      branches_rows website pages_of inputs rest
  end.

(** The events of a whole run that goes well: the probe in context
    [c], then every pair in a context of its own. *)
Definition scrape_events (c : nat) (website : string)
    (pages_of : nat -> query -> list page) (first : query)
    (inputs : list query) (branch_count : nat) : list event :=
  [Launched; NewContext c; NewPage c] ++
  (Did c <$> nav_actions first) ++
  [ClosedContext c] ++
  branches_events (S c) website pages_of inputs (seq 0 branch_count) ++
  [Logged ScrapingComplete; ClosedBrowser].

(** An event that touches no context but [c]. *)
Definition within (c : nat) (e : event) : Prop :=
  match e with
  | Logged _ => True
  | Did c' _ | ReadContent c' | ClosedContext c' => c' = c
  | _ => False
  end.

End OverASite.

End Paging.

(* ================================================================== *)
(** * Relations between the states of a run *)
(* ================================================================== *)

Module Relations.

(** The [seasonality] column of a row holds no upper-case letter. *)
Definition lowercase_row (r : Row) : Prop :=
  Text.all_lowercase (seasonality r) = true.

(** From [st] to [st'] the table only grew, and by rows whose
    [seasonality] is lower case. *)
Definition appends_lowercase (st st' : State) : Prop :=
  exists new, db st' = db st ++ new /\ Forall lowercase_row new.

(** From [st] to [st'] the trace only grew, and by events that all
    satisfy [P]. *)
Definition extends_by (P : event -> Prop) (st st' : State) : Prop :=
  exists evs, trace st' = trace st ++ evs /\ Forall P evs.

Definition is_sleep (e : event) : Prop := exists seconds, e = Slept seconds.

(** The events of the site B engine: log lines, requests, the dump. *)
Definition national_event (e : event) : Prop :=
  match e with
  | Logged _ | Requested _ _ _ | Dumped _ _ => True
  | _ => False
  end.

(** The [n]-th request, to [url], is answered with a status that passes
    [raise_for_status] and a page whose postal-code span reads [text]. *)
Definition page_text (web : Web) (n : nat) (url text : string) : Prop :=
  exists latency status body,
    serve web n url = Response latency status body /\
    status_raises web status = false /\
    postal_code body = Some text.

(** The requests numbered [n], [n+1], ... to [urls] are answered with
    pages whose postal-code spans read [texts]. *)
Inductive page_texts (web : Web) : nat -> list string -> list string -> Prop :=
| page_texts_nil n : page_texts web n [] []
| page_texts_cons n url urls text texts :
    page_text web n url text ->
    page_texts web (S n) urls texts ->
    page_texts web n (url :: urls) (text :: texts).

(** From [s] to [s'] the session stored the rows [rows] and produced
    the events [evs], and neither the scraper's name nor the next context
    identifier changed. *)
Definition grew {page} (s s' : Dexel.Session page) (rows : list Row)
    (evs : list event) : Prop :=
  Dexel.next_context s' = Dexel.next_context s /\
  website (Dexel.machine s') = website (Dexel.machine s) /\
  db (Dexel.machine s') = db (Dexel.machine s) ++ rows /\
  trace (Dexel.machine s') = trace (Dexel.machine s) ++ evs.

(** From [s] to [s'] the session opened [opened] contexts and closed
    them all again, stored the rows [rows] and produced the events
    [evs]. *)
Definition ran {page} (s s' : Dexel.Session page) (opened : nat)
    (rows : list Row) (evs : list event) : Prop :=
  Dexel.contexts s' = ∅ /\
  Dexel.next_context s' = (Dexel.next_context s + opened)%nat /\
  website (Dexel.machine s') = website (Dexel.machine s) /\
  db (Dexel.machine s') = db (Dexel.machine s) ++ rows /\
  trace (Dexel.machine s') = trace (Dexel.machine s) ++ evs.

(** The pairs of branch [branch] all go well within the fuel: each
    pages through the result set [pages_of] gives for it. *)
Definition pairs_go_well {page} (site : Dexel.Site page) (fuel : nat)
    (pages_of : nat -> query -> list page) (inputs : list query)
    (branch : nat) : Prop :=
  Forall (fun input =>
            Paging.pair_pages site branch input (pages_of branch input) /\
            length (pages_of branch input) <= fuel) inputs.

(** From [s] to [s'] no context was created, and every event touched
    no context but [c]. *)
Definition inside {page} (c : nat) (s s' : Dexel.Session page) : Prop :=
  Dexel.next_context s' = Dexel.next_context s /\
  extends_by (Paging.within c) (Dexel.machine s) (Dexel.machine s').

(** A relation on machines, read on the sessions that hold them. *)
Definition of_machine {page} (R : State -> State -> Prop)
    (s s' : Dexel.Session page) : Prop :=
  R (Dexel.machine s) (Dexel.machine s').

End Relations.

(* ================================================================== *)
(** * More vocabulary and fixtures *)
(* ================================================================== *)

Module Accounts.

(** The row a log line of [add_to_database] announces: the season is
    what the line shows, lower-cased. *)
Definition row_of_line (e : event) : option Row :=
  match e with
  | Logged (AddingTyre w b p sz se c) =>
      Some {| website_name := w; tyre_brand := b; tyre_pattern := p;
              tyre_size := sz; seasonality := Text.lower se; price := c |}
  | _ => None
  end.

(** The rows announced by the log lines among [evs], in order. *)
Definition logged_rows (evs : list event) : list Row := omap row_of_line evs.

(** From [st] to [st'] the scraper kept its name, and the rows it
    stored are exactly those its new log lines announce, each under that
    name. *)
Definition accounted (st st' : State) : Prop :=
  website st' = website st /\
  exists rows evs,
    db st' = db st ++ rows /\
    trace st' = trace st ++ evs /\
    logged_rows evs = rows /\
    Forall (fun r => website_name r = website st) rows.

End Accounts.

Module MoreFixtures.

(** A server that never answers: every request fails after a second. *)
Definition dead_web : Web :=
  {| serve := fun _ _ => ConnectionError 1;
     status_raises := Fixtures.non_2xx |}.

(** A scraper that was answered at 7 on the clock, a third of a second
    ago. *)
Definition recently_answered : State :=
  tick (1 # 3) (stamp 7 (init National.name 7)).

(** A site A card with no [div.box]. *)
Definition no_price : DexelCard :=
  {| detail_area := Some {| brand_input := Some (Some "Michelin");
                            pattern_input := Some (Some "Primacy") |};
     para_text := Some "205/55 R16";
     tyre_icon := Some (Some "Summer");
     box := NoBox |}.

(** A site A whose only result page shows the jump to the last page, and
    whose next-page link leads back to that page.  Tab 0 is blank, tab 1
    the result page. *)
Definition carousel : Dexel.Site nat :=
  {| Dexel.blank := 0%nat;
     Dexel.act := fun p a =>
       match a, p with
       | ClickPagination (Nth 1%Z), 1%nat => Some 1%nat
       | _, _ => None
       end;
     Dexel.content := fun _ => Fixtures.results [Fixtures.pilot_sport];
     Dexel.footer := fun _ =>
       {| Dexel.links := ["1"; "Next >"; "Last >>"];
          Dexel.items := [Some "active"; None; None] |};
     Dexel.branch_buttons := fun _ => 1%nat |}.

(** A site A whose result page has a footer with two links and no list
    item. *)
Definition bare_footer : Dexel.Site nat :=
  {| Dexel.blank := 0%nat;
     Dexel.act := fun _ _ => None;
     Dexel.content := fun _ => Fixtures.results [Fixtures.pilot_sport];
     Dexel.footer := fun _ =>
       {| Dexel.links := ["1"; "2"]; Dexel.items := [] |};
     Dexel.branch_buttons := fun _ => 0%nat |}.

(** A session whose context 0 shows tab 1. *)
Definition on_tab_one : Dexel.Session nat :=
  Dexel.on_contexts (insert 0%nat 1%nat) (Dexel.start 0).

(** A branch directory whose second link has no [href]. *)
Definition broken_directory : Web :=
  Fixtures.instant_web
    [ {| dexel_products := [];
         branch_links := [Some "branch/leeds"; None];
         postal_code := None; national_tyres := [] |} ].

(** A search page of site B with the given cards. *)
Definition search_page (cards : list NationalCard) : Soup :=
  {| dexel_products := []; branch_links := []; postal_code := None;
     national_tyres := cards |}.

(** A server whose first two answers are search pages with one card
    and with two cards. *)
Definition two_searches : Web :=
  Fixtures.instant_web
    [ search_page [Fixtures.ecocontact];
      search_page [Fixtures.national_card "Pirelli" "Cinturato P7"
                     "225/50 R16 92W" "Summer" "101.50";
                   Fixtures.ecocontact] ].


End MoreFixtures.

(* ================================================================== *)
(** * Words *)
(* ================================================================== *)

Module Words.





End Words.

(* ================================================================== *)
(** * What the browser engine does to the machine *)
(* ================================================================== *)

Module Browsing.

(** The events of the site A engine other than the log line of
    [add_to_database]: what it logs itself and what it does to the
    browser. *)
Definition browser_event (e : event) : Prop :=
  match e with
  | Logged (AddingTyre _ _ _ _ _ _) => False
  | Requested _ _ _ | Slept _ | Dumped _ _ => False
  | _ => True
  end.

(** An event of the fetcher of the base class: a request or a sleep. *)
Definition fetcher_event (e : event) : Prop :=
  match e with
  | Requested _ _ _ | Slept _ => True
  | _ => False
  end.

(** From [st] to [st'] the fetcher of the base class was not used: no
    request, no sleep, the timestamp as it was. *)
Definition fetcher_idle (st st' : State) : Prop :=
  last_request_time st' = last_request_time st /\
  served st' = served st /\
  Relations.extends_by (fun e => ~ fetcher_event e) st st'.

(** From [s] to [s'] every context but [c] shows what it showed, and
    [c], if it was open, still is. *)
Definition tab_kept {page} (c : nat) (s s' : Dexel.Session page) : Prop :=
  (forall c', c' <> c -> Dexel.contexts s' !! c' = Dexel.contexts s !! c') /\
  (is_Some (Dexel.contexts s !! c) -> is_Some (Dexel.contexts s' !! c)).

End Browsing.

(* ================================================================== *)
(** * Site B: the search pages of a run *)
(* ================================================================== *)

Module Searches.

(** The observations of the cards of a site B page that can be read. *)
Definition observations (cards : list NationalCard) : list Observation :=
  flat_map (fun card =>
              match run_reading (National.read_card card) with
              | Ok o => [o]
              | _ => []
              end) cards.

(** Every card of the page can be read. *)
Definition readable (soup : Soup) : Prop :=
  Forall (fun card => exists o, run_reading (National.read_card card) = Ok o)
         (national_tyres soup).

(** The URLs [extract_data] asks for, in the order it asks: for each
    postcode, each input. *)
Definition urls (inputs : list query) (postcodes : list string)
  : list string :=
  flat_map (fun postcode =>
              (fun input => National.search_url input postcode) <$> inputs)
           postcodes.

(** The requests numbered [n], [n+1], ... to [urls] are answered with
    the pages [pages], each with a status that passes
    [raise_for_status]. *)
Inductive answered (web : Web) : nat -> list string -> list Soup -> Prop :=
| answered_nil n : answered web n [] []
| answered_cons n url urls latency status soup soups :
    serve web n url = Response latency status soup ->
    status_raises web status = false ->
    answered web (S n) urls soups ->
    answered web n (url :: urls) (soup :: soups).

(** The rows a run stores for the pages [pages]. *)
Definition rows (website : string) (pages : list Soup) : list Row :=
  flat_map (fun soup =>
              Paging.row_of website <$> observations (national_tyres soup))
           pages.



End Searches.

(* ================================================================== *)
(** * Facts about the string methods *)
(* ================================================================== *)

Module TextFacts.

Import Text.


































End TextFacts.

(* ================================================================== *)
(** * Transition invariants of raising computations *)
(* ================================================================== *)

Module Steps.

Section Keeps.

Context {S : Type} (R : S -> S -> Prop) `{!PreOrder R}.

Lemma keeps_ret {A} (a : A) : keeps R (ret a).
Proof. intros st. reflexivity. Qed.

Lemma keeps_raise {A} e : keeps R (@raise S A e).
Proof. intros st. reflexivity. Qed.

Lemma keeps_out_of_fuel {A} : keeps R (@out_of_fuel S A).
Proof. intros st. reflexivity. Qed.

Lemma keeps_get : keeps R (@get S).
Proof. intros st. reflexivity. Qed.

Lemma keeps_modify f : (forall st, R st (f st)) -> keeps R (modify f).
Proof. intros H st. apply H. Qed.

Lemma keeps_bind {A B} (m : M S A) (k : A -> M S B) :
  keeps R m -> (forall a, keeps R (k a)) -> keeps R (bind m k).
Proof.
  intros Hm Hk st. unfold bind.
  specialize (Hm st). destruct (m st) as [[a| |] st']; simpl in *; trivial.
  etransitivity; [exact Hm|]. apply Hk.
Qed.

Lemma keeps_not_none {A} (o : option A) : keeps R (not_none o).
Proof. destruct o; [apply keeps_ret | apply keeps_raise]. Qed.

Lemma keeps_lift_reading {A} (m : reading A) : keeps R (lift_reading m).
Proof. intros st. reflexivity. Qed.

Lemma keeps_for_each {A} (xs : list A) body :
  (forall x, keeps R (body x)) -> keeps R (for_each xs body).
Proof.
  intros H. induction xs as [|x xs IH]; simpl.
  - apply keeps_ret.
  - apply keeps_bind; [apply H | intros _; exact IH].
Qed.

Lemma keeps_map_m {A B} (f : A -> M S B) xs :
  (forall x, keeps R (f x)) -> keeps R (map_m f xs).
Proof.
  intros H. induction xs as [|x xs IH]; simpl.
  - apply keeps_ret.
  - apply keeps_bind; [apply H | intros y].
    apply keeps_bind; [exact IH | intros ys; apply keeps_ret].
Qed.

End Keeps.

(** ** Equations between computations, state by state *)

Lemma bind_ok {S A B} (m : M S A) (k : A -> M S B) s a s' :
  m s = (Ok a, s') -> bind m k s = k a s'.
Proof. intros H. unfold bind. now rewrite H. Qed.

Lemma bind_assoc {S A B C} (m : M S A) (f : A -> M S B) (g : B -> M S C) s :
  bind (bind m f) g s = bind m (fun x => bind (f x) g) s.
Proof. unfold bind. now destruct (m s) as [[a|e|] s1]. Qed.

Lemma bind_ext {S A B} (m : M S A) (k k' : A -> M S B) s :
  (forall a s1, k a s1 = k' a s1) -> bind m k s = bind m k' s.
Proof. intros H. unfold bind. destruct (m s) as [[a|e|] s1]; auto. Qed.

(** A loop followed by [k] is the chain of its bodies ending in [k]. *)
Lemma for_each_then {S A B} (xs : list A) (body : A -> M S unit)
    (k : M S B) s :
  bind (for_each xs body) (fun _ => k) s =
  fold_right (fun x rest => bind (body x) (fun _ => rest)) k xs s.
Proof.
  revert s. induction xs as [|x xs IH]; intros s; simpl.
  - reflexivity.
  - rewrite bind_assoc. apply bind_ext. intros _ s1. apply IH.
Qed.

(** [nav_to_branch_page] performs the actions of [nav_actions] in
    order and returns the page handle it was given. *)
Lemma nav_to_branch_page_steps {page} (site : Dexel.Site page) c input s :
  Dexel.nav_to_branch_page site c input s =
  bind (for_each (Paging.nav_actions input) (Dexel.perform site c))
       (fun _ => ret c) s.
Proof. destruct input as [[w a] r]. now rewrite for_each_then. Qed.

End Steps.

(* ================================================================== *)
(** * The table: what [add_to_database] stores *)
(* ================================================================== *)

Module StoreFacts.

Import Base Relations Steps.

#[export] Instance appends_lowercase_preorder : PreOrder appends_lowercase.
Proof.
  split.
  - intros st. exists []. split; [now rewrite app_nil_r | constructor].
  - intros s1 s2 s3 (n1 & E1 & F1) (n2 & E2 & F2). exists (n1 ++ n2). split.
    + now rewrite E2, E1, app_assoc.
    + now apply Forall_app.
Qed.


(** What a call of [add_to_database] leaves behind. *)
Lemma add_to_database_run brand pattern size season cost st :
  add_to_database brand pattern size season cost st =
  (Ok tt,
   append_row {| website_name := website st; tyre_brand := brand;
                 tyre_pattern := pattern; tyre_size := size;
                 seasonality := Text.lower season; price := cost |}
     (emit (Logged (AddingTyre (website st) brand pattern size season cost))
        st)).
Proof. reflexivity. Qed.







Section OnSessions.

Context {page : Type} (site : Dexel.Site page).

#[export] Instance of_machine_preorder (R : State -> State -> Prop)
  `{!PreOrder R} : PreOrder (@of_machine page R).
Proof.
  split.
  - intros s. unfold of_machine. reflexivity.
  - intros s1 s2 s3 H1 H2. unfold of_machine in *. etransitivity; eassumption.
Qed.

Lemma lift_machine_keeps {A} (R : State -> State -> Prop) (m : M State A) :
  keeps R m -> keeps (of_machine R) (@Dexel.lift_machine page A m).
Proof.
  intros H s. unfold of_machine, Dexel.lift_machine.
  specialize (H (Dexel.machine s)).
  now destruct (m (Dexel.machine s)).
Qed.

Lemma on_contexts_keeps (R : State -> State -> Prop) `{!PreOrder R} f :
  keeps (of_machine R) (modify (@Dexel.on_contexts page f)).
Proof. intros s. unfold of_machine. simpl. reflexivity. Qed.


Lemma showing_keeps (R : State -> State -> Prop) `{!PreOrder R} c :
  keeps (of_machine R) (@Dexel.showing page c).
Proof.
  intros s. unfold of_machine, Dexel.showing, bind, get. simpl.
  destruct (Dexel.contexts s !! c); simpl; reflexivity.
Qed.







Ltac then_ lemma := apply keeps_bind; [exact _ | lemma | intros ?].






End OnSessions.


End StoreFacts.

(* ================================================================== *)
(** * The normalizers: what is read off one card *)
(* ================================================================== *)

Module CardFacts.

Import Text TextFacts.

Ltac run_card :=
  cbv [run_reading Dexel.read_card National.read_card Dexel.minimum_price
       bind not_none ret raise fst
       detail_area brand_input pattern_input para_text tyre_icon box
       data_brand hypPattern size_paragraph link_text data_tyre_season
       data_price].

(** A site A card is read successfully exactly when every element and
    attribute the loop touches is there, and then the observation is the
    cleaned text of each. *)
Lemma dexel_read_card_ok card o :
  run_reading (Dexel.read_card card) = Ok o ->
  exists raw_brand raw_pattern raw_text raw_title members raw_price,
    detail_area card = Some {| brand_input := Some (Some raw_brand);
                               pattern_input := Some (Some raw_pattern) |} /\
    para_text card = Some raw_text /\
    tyre_icon card = Some (Some raw_title) /\
    box card = Payload (JObject members) /\
    dict_get "minimum_price" members = Some (JString raw_price) /\
    o = {| brand := Dexel.clean raw_brand;
           pattern := Dexel.clean raw_pattern;
           size := join " " (take 2 (split (strip raw_text)));
           season := Dexel.clean raw_title;
           cost := strip raw_price |}.
Proof.
  destruct card as [[[[[b|]|] [[p|]|]]|] [t|] [[i|]|] bx];
    run_card; try discriminate.
  destruct bx as [| | |[| | | |items|members]]; try discriminate.
  destruct (dict_get "minimum_price" members) as [[| | |raw| |]|] eqn:E;
    try discriminate.
  intros [= <-]. now exists b, p, t, i, members, raw.
Qed.









(** C4, as the specification states it, fails: on the card
    [mislabelled] the price read is ["150.00"], the value of the tier
    [minimum_price], although the tier [other_tier] advertises
    ["120.00"]; no comparison of tiers takes place. *)
Lemma minimum_price_is_not_the_cheapest_tier :
  exists o,
    run_reading (Dexel.read_card Fixtures.mislabelled) = Ok o /\
    cost o = "150.00" /\
    ~ Wording.minimum_among_tiers
        [("minimum_price", JString "150.00");
         ("other_tier", JString "120.00")] (cost o).
Proof.
  eexists. split; [reflexivity|]. split; [reflexivity|].
  intros H. specialize (H "other_tier" "120.00" eq_refl).
  vm_compute in H. now apply H.
Qed.

(** C4, amended.  The price of a site A card is the value stored under
    the key [minimum_price] of its pricing payload, stripped, whatever
    the other tiers hold; a card is read successfully only if that key
    holds a string; for the payload of the specification's example the
    price is ["120.00"]. *)
Theorem minimum_price_reads_the_named_tier :
  (forall members raw,
     dict_get "minimum_price" members = Some (JString raw) ->
     run_reading (Dexel.minimum_price (Payload (JObject members)))
       = Ok (strip raw)) /\
  (forall card o,
     run_reading (Dexel.read_card card) = Ok o ->
     exists members raw,
       box card = Payload (JObject members) /\
       dict_get "minimum_price" members = Some (JString raw) /\
       cost o = strip raw) /\
  run_reading (Dexel.minimum_price (Payload Fixtures.prices_120))
    = Ok "120.00".
Proof.
  split; [|split].
  - intros members raw H. run_card. now rewrite H.
  - intros card o H.
    destruct (dexel_read_card_ok _ _ H)
      as (rb & rp & rt & ri & members & rc & _ & _ & _ & Hb & Hm & ->).
    now exists members, rc.
  - reflexivity.
Qed.

(** The amended C4 at the card [mislabelled]. *)
Lemma minimum_price_witness :
  run_reading (Dexel.minimum_price (Payload Fixtures.prices_mislabelled))
    = Ok "150.00".
Proof.
  exact (proj1 minimum_price_reads_the_named_tier
           [("minimum_price", JString "150.00");
            ("other_tier", JString "120.00")] "150.00" eq_refl).
Defined.






End CardFacts.

(* ================================================================== *)
(** * The fetcher: timestamps and waits *)
(* ================================================================== *)

Module FetchFacts.

Import Base.

(** A request that is answered: the clock moves by the latency, the
    request is counted and traced, the timestamp is set to the moment of
    completion, and only then is the status looked at. *)
Lemma fetch_html_response web url st latency status body :
  serve web (served st) url = Response latency status body ->
  fetch_html web url st =
    ((if status_raises web status then Raise (RequestException url)
      else Ok body),
     stamp (clock st + latency)%Q
       (emit (Requested url (Some status) (clock st + latency)%Q)
          (count_request (tick latency st)))).
Proof.
  intros H. unfold fetch_html, bind, get. rewrite H. simpl.
  now destruct (status_raises web status).
Qed.

(** A request that is not answered leaves the timestamp alone. *)
Lemma fetch_html_connection_error web url st latency :
  serve web (served st) url = ConnectionError latency ->
  fetch_html web url st =
    (Raise (RequestException url),
     emit (Requested url None (clock st + latency)%Q)
       (count_request (tick latency st))).
Proof. intros H. unfold fetch_html, bind, get. now rewrite H. Qed.

Lemma truthy_nonzero t : ~ (t == 0)%Q -> truthy t = true.
Proof.
  intros H. unfold truthy. destruct (Qeq_bool t 0) eqn:E; [|reflexivity].
  apply Qeq_bool_iff in E. contradiction.
Qed.

(** [fetch_html_timed] when a timestamp is set and at most one second
    has gone by since: it sleeps for the rest of the second, then
    fetches. *)
Lemma fetch_html_timed_waits web url st t :
  last_request_time st = Some t -> truthy t = true ->
  Qle_bool (clock st - t) 1 = true ->
  fetch_html_timed web url st =
    try_except
      (fetch_html web url)
      (fun _ => raise (RuntimeError url))
      (emit (Slept (1 - (clock st - t))%Q) (tick (1 - (clock st - t))%Q st)).
Proof.
  intros Hl Ht Hle.
  unfold fetch_html_timed, try_except, bind, get, monotonic, sleep, modify,
    ret. simpl.
  rewrite Hl, Ht. simpl. rewrite Hle. reflexivity.
Qed.

(** [fetch_html_timed] when more than a second has gone by: it fetches
    at once. *)
Lemma fetch_html_timed_goes web url st t :
  last_request_time st = Some t -> truthy t = true ->
  Qle_bool (clock st - t) 1 = false ->
  fetch_html_timed web url st =
    try_except (fetch_html web url) (fun _ => raise (RuntimeError url)) st.
Proof.
  intros Hl Ht Hle.
  unfold fetch_html_timed, try_except, bind, get, monotonic, sleep, modify,
    ret. simpl.
  rewrite Hl, Ht. simpl. rewrite Hle. reflexivity.
Qed.

Lemma try_except_trace {A} (body : M State A) handler_url st :
  trace (snd (try_except body (fun _ => raise (RuntimeError handler_url)) st))
    = trace (snd (body st)).
Proof.
  unfold try_except. destruct (body st) as [[a|[]|] st']; reflexivity.
Qed.

Lemma fetch_html_trace web url st :
  exists status,
    trace (snd (fetch_html web url st)) =
      trace st ++
      [Requested url status
         (clock st + latency_of (serve web (served st) url))%Q].
Proof.
  destruct (serve web (served st) url) as [lat|lat status body] eqn:E.
  - rewrite (fetch_html_connection_error _ _ _ _ E). now exists None.
  - rewrite (fetch_html_response _ _ _ _ _ _ E). now exists (Some status).
Qed.

(** C10.  When the answer to [fetch_html] has a status that
    [raise_for_status] raises on, the call raises, and the state it
    leaves has the timestamp set to the moment the failed request
    completed.  A call of [fetch_html_timed] made [idle] seconds later
    then sleeps for what is left of the second when [idle] is at most
    one second, and does not sleep otherwise; either way its request
    completes at least one second after the failed one.  (The timestamp
    is tested with [if self.last_request_time:], so the clock reading
    must not be zero.) *)
Theorem failed_fetch_still_throttles web url st latency status body :
  serve web (served st) url = Response latency status body ->
  status_raises web status = true ->
  let t_fail := (clock st + latency)%Q in
  exists st1,
    fetch_html web url st = (Raise (RequestException url), st1) /\
    last_request_time st1 = Some t_fail /\
    clock st1 = t_fail /\
    trace st1 = trace st ++ [Requested url (Some status) t_fail] /\
    forall url2 idle,
      ~ (t_fail == 0)%Q -> (0 <= idle)%Q ->
      (0 <= latency_of (serve web (served st1) url2))%Q ->
      let st2 := tick idle st1 in
      exists before s2 t2,
        trace (snd (fetch_html_timed web url2 st2)) =
          trace st2 ++ before ++ [Requested url2 s2 t2] /\
        (t_fail + 1 <= t2)%Q /\
        ((idle <= 1)%Q -> exists w, before = [Slept w] /\ (w == 1 - idle)%Q) /\
        ((1 < idle)%Q -> before = []).
Proof.
  intros Hserve Hraise t_fail.
  eexists. rewrite (fetch_html_response _ _ _ _ _ _ Hserve), Hraise.
  split; [reflexivity|]. split; [reflexivity|]. split; [reflexivity|].
  split; [reflexivity|].
  intros url2 idle Hnz Hidle Hlat st2.
  set (st1 := stamp _ _) in *.
  assert (Hl : last_request_time st2 = Some t_fail) by reflexivity.
  assert (Hc : clock st2 = (t_fail + idle)%Q) by reflexivity.
  assert (Hs : served st2 = served st1) by reflexivity.
  pose proof (truthy_nonzero _ Hnz) as Ht.
  destruct (Qle_bool (clock st2 - t_fail) 1) eqn:Hle.
  - rewrite (fetch_html_timed_waits _ _ _ _ Hl Ht Hle), try_except_trace.
    set (w := (1 - (clock st2 - t_fail))%Q).
    destruct (fetch_html_trace web url2 (emit (Slept w) (tick w st2)))
      as [s2 E].
    exists [Slept w], s2. eexists. split.
    { rewrite E. simpl. rewrite <- app_assoc. reflexivity. }
    apply Qle_bool_iff in Hle. simpl in *. rewrite Hc in *.
    split; [|split].
    + unfold w. rewrite Hc. lra.
    + intros _. exists w. split; [reflexivity|]. unfold w. rewrite Hc. lra.
    + intros Hgt. lra.
  - rewrite (fetch_html_timed_goes _ _ _ _ Hl Ht Hle), try_except_trace.
    destruct (fetch_html_trace web url2 st2) as [s2 E].
    exists [], s2. eexists. split; [exact E|].
    assert (Hgt : (1 < clock st2 - t_fail)%Q).
    { apply Qnot_le_lt. intros Hle'. apply Qle_bool_iff in Hle'. congruence. }
    rewrite Hs, Hc in *.
    split; [|split].
    + lra.
    + intros Hle1. lra.
    + reflexivity.
Qed.

(** C10 at the server [flaky_web]: the first request fails with a 503
    at 10.5 on the clock; the timed fetch made a quarter of a second
    later sleeps for three quarters of a second, and its request
    completes no earlier than 11.5. *)
Lemma failed_fetch_witness :
  exists st1,
    fetch_html Fixtures.flaky_web "https://www.national.co.uk/branches"
      (init National.name 10) =
    (Raise (RequestException "https://www.national.co.uk/branches"), st1) /\
    last_request_time st1 = Some (10 + (1 # 2))%Q /\
    exists before s2 t2,
      trace (snd (fetch_html_timed Fixtures.flaky_web
                    "https://www.national.co.uk/branches"
                    (tick (1 # 4) st1)))
        = trace (tick (1 # 4) st1) ++ before ++
          [Requested "https://www.national.co.uk/branches" s2 t2] /\
      (10 + (1 # 2) + 1 <= t2)%Q /\
      exists w, before = [Slept w] /\ (w == 1 - (1 # 4))%Q.
Proof.
  destruct (failed_fetch_still_throttles Fixtures.flaky_web
              "https://www.national.co.uk/branches" (init National.name 10)
              (1 # 2) 503%Z Fixtures.empty_soup eq_refl eq_refl)
    as (st1 & E & L & _ & _ & H).
  exists st1. split; [exact E|]. split; [exact L|].
  destruct (H "https://www.national.co.uk/branches" (1 # 4))
    as (before & s2 & t2 & Et & Hge & Hw & _).
  - intros Z. vm_compute in Z. discriminate.
  - vm_compute. discriminate.
  - simpl. destruct (served st1); vm_compute; discriminate.
  - exists before, s2, t2. split; [exact Et|]. split; [exact Hge|].
    apply Hw. vm_compute. discriminate.
Defined.

End FetchFacts.

(* ================================================================== *)
(** * Site B: what a run requests, and when it waits *)
(* ================================================================== *)

Module NationalFacts.

Import Base Relations Steps FetchFacts.

#[export] Instance extends_by_preorder P : PreOrder (extends_by P).
Proof.
  split.
  - intros st. exists []. split; [now rewrite app_nil_r | constructor].
  - intros s1 s2 s3 (e1 & E1 & F1) (e2 & E2 & F2). exists (e1 ++ e2). split.
    + now rewrite E2, E1, app_assoc.
    + now apply Forall_app.
Qed.

Lemma emit_extends (P : event -> Prop) e :
  P e -> keeps (extends_by P) (modify (emit e)).
Proof.
  intros H st. exists [e]. split; [reflexivity|]. now constructor.
Qed.

Lemma fetch_html_extends (P : event -> Prop) web url :
  (forall u s t, P (Requested u s t)) ->
  keeps (extends_by P) (fetch_html web url).
Proof.
  intros H st. destruct (fetch_html_trace web url st) as [s E].
  eexists. split; [exact E|]. constructor; [apply H | constructor].
Qed.

Lemma add_to_database_extends (P : event -> Prop) b p sz se c :
  (forall e, P (Logged e)) ->
  keeps (extends_by P) (add_to_database b p sz se c).
Proof.
  intros H st. rewrite StoreFacts.add_to_database_run.
  eexists. split; [reflexivity|]. constructor; [apply H | constructor].
Qed.

Section Runs.

Variable P : event -> Prop.
Hypothesis P_logged : forall e, P (Logged e).
Hypothesis P_requested : forall u s t, P (Requested u s t).
Hypothesis P_dumped : forall f l, P (Dumped f l).

Ltac extends_step :=
  first
    [ apply add_to_database_extends; exact P_logged
    | apply fetch_html_extends; exact P_requested
    | apply emit_extends; first [apply P_logged | apply P_dumped]
    | apply keeps_ret; exact _
    | apply keeps_raise; exact _
    | apply keeps_not_none; exact _
    | apply keeps_lift_reading; exact _
    | apply keeps_for_each; [exact _ | intros ?]
    | apply keeps_map_m; [exact _ | intros ?]
    | apply keeps_bind; [exact _ | | intros ?] ].

Lemma find_branch_postcodes_extends web :
  keeps (extends_by P) (National.find_branch_postcodes web).
Proof.
  unfold National.find_branch_postcodes, National.read_postcode, log_info.
  repeat extends_step.
  destruct x; repeat extends_step.
Qed.

Lemma extract_data_extends web inputs postcodes :
  keeps (extends_by P) (National.extract_data web inputs postcodes).
Proof.
  unfold National.extract_data, National.record, log_info.
  repeat extends_step.
Qed.

Lemma national_scrape_extends web inputs :
  keeps (extends_by P) (National.scrape web inputs).
Proof.
  unfold National.scrape, National.dump_postcodes.
  apply keeps_bind; [exact _ | apply find_branch_postcodes_extends | intros pcs].
  apply keeps_bind; [exact _ | apply emit_extends, P_dumped | intros _].
  apply extract_data_extends.
Qed.

End Runs.

(** C3 fails on the code.  No run of the site B engine ever sleeps:
    whatever the server and the inputs, every event of [scrape] is a log
    line, a request or the dump of the postcodes, because
    [find_branch_postcodes] and [extract_data] call [fetch_html], not
    [fetch_html_timed].  On the server [one_branch], which answers at
    once, the three requests of a run all complete at 5 on the clock. *)
Theorem site_b_never_waits :
  (forall web inputs,
     keeps (extends_by (fun e => national_event e /\ ~ is_sleep e))
       (National.scrape web inputs)) /\
  trace (snd (National.scrape Fixtures.one_branch [(205, 55, 16)%Z]
                (init National.name 5))) =
    [Logged StartingPostcodes;
     Requested "https://www.national.co.uk/branches" (Some 200%Z) 5;
     Requested "https://www.national.co.uk/branch/leeds" (Some 200%Z) 5;
     Logged (PostcodesExtracted 1);
     Dumped "postcodes.json" ["LS14AP"];
     Logged (ScrapingPostcode "LS14AP");
     Logged (ScrapingInputs (205, 55, 16)%Z);
     Requested "https://www.national.co.uk/tyres-search/205-55-16?pc=LS14AP"
       (Some 200%Z) 5].
Proof.
  split; [|vm_compute; reflexivity].
  intros web inputs. apply national_scrape_extends.
  - intros e. split; [exact I|]. intros [d H]. discriminate.
  - intros u s t. split; [exact I|]. intros [d H]. discriminate.
  - intros f l. split; [exact I|]. intros [d H]. discriminate.
Qed.





Lemma distinct_NoDup l : NoDup (National.distinct l).
Proof. unfold National.distinct. apply NoDup_elements. Qed.

Lemma elem_of_distinct x l : x ∈ National.distinct l <-> x ∈ l.
Proof. unfold National.distinct. now rewrite elem_of_elements, elem_of_list_to_set. Qed.





End NationalFacts.

(* ================================================================== *)
(** * Site A: the pagination loop *)
(* ================================================================== *)

Module PagingFacts.

Import Base Relations Steps Dexel Paging.

Lemma grew_refl {page} (s : Session page) : grew s s [] [].
Proof. unfold grew. now rewrite !app_nil_r. Qed.

Lemma grew_trans {page} (s1 s2 s3 : Session page) r1 r2 e1 e2 :
  grew s1 s2 r1 e1 -> grew s2 s3 r2 e2 -> grew s1 s3 (r1 ++ r2) (e1 ++ e2).
Proof.
  intros (N1 & W1 & D1 & T1) (N2 & W2 & D2 & T2). unfold grew.
  rewrite N2, W2, D2, T2, N1, W1, D1, T1, !app_assoc. auto.
Qed.

Section OverASite.

Context {page : Type}.
Variable site : Site page.

(** ** The three tests *)

Lemma next_action_no_link f :
  links f = [] -> next_action f = StopOnePage.
Proof. intros H. unfold next_action. now rewrite H. Qed.

Lemma next_action_jump f text :
  last (links f) = Some text ->
  Text.contains "Last" (Text.strip text) = true ->
  next_action f = Follow (Nth (Z.of_nat (length (links f)) - 2)).
Proof. intros H1 H2. unfold next_action. now rewrite H1, H2. Qed.

Lemma next_action_active f text :
  last (links f) = Some text ->
  Text.contains "Last" (Text.strip text) = false ->
  last (items f) = Some (Some "active") ->
  next_action f = StopLastPage.
Proof. intros H1 H2 H3. unfold next_action. now rewrite H1, H2, H3. Qed.

Lemma next_action_near_end f text class :
  last (links f) = Some text ->
  Text.contains "Last" (Text.strip text) = false ->
  last (items f) = Some class -> class <> Some "active" ->
  next_action f = Follow LastOf.
Proof.
  intros H1 H2 H3 H4. unfold next_action. rewrite H1, H2, H3.
  now destruct (decide (class = Some "active")).
Qed.

Lemma leads_to_follows p q :
  leads_to site p q ->
  exists l, next_action (footer site p) = Follow l /\
            act site p (ClickPagination l) = Some q.
Proof.
  intros (text & Hl & [[Hc Ha] | (Hc & (class & Hi & Hn) & Ha)]).
  - eexists. split; [now apply next_action_jump with text | exact Ha].
  - eexists. split; [now apply next_action_near_end with text class
                    | exact Ha].
Qed.

Lemma final_stops p :
  final site p ->
  next_action (footer site p) = StopOnePage \/
  next_action (footer site p) = StopLastPage.
Proof.
  intros [H | (text & Hl & Hc & Hi)].
  - left. now apply next_action_no_link.
  - right. now apply next_action_active with text.
Qed.

(** ** The site decides where a page leads *)






(** ** Running the engine's steps *)

Lemma showing_run c p (s : Session page) :
  contexts s !! c = Some p -> showing c s = (Ok p, s).
Proof. intros H. unfold showing, bind, get. now rewrite H. Qed.

Lemma page_content_run c p s :
  contexts s !! c = Some p ->
  page_content site c s =
    (Ok (content site p), on_machine (emit (ReadContent c)) s).
Proof.
  intros H. unfold page_content.
  rewrite (bind_ok _ _ _ _ _ (showing_run _ _ _ H)). reflexivity.
Qed.

Lemma perform_run c a p q s :
  contexts s !! c = Some p -> act site p a = Some q ->
  perform site c a s =
    (Ok tt, on_contexts (insert c q) (on_machine (emit (Did c a)) s)).
Proof.
  intros H Ha. unfold perform.
  rewrite (bind_ok _ _ _ _ _ (showing_run _ _ _ H)).
  unfold bind, happen, modify. simpl. now rewrite Ha.
Qed.

Lemma observations_cons card cards o :
  run_reading (read_card card) = Ok o ->
  observations (card :: cards) = o :: observations cards.
Proof. intros H. unfold observations. simpl. now rewrite H. Qed.

(** [parse_html] on a page whose cards can all be read: a log line and
    a row per card, in order, and the browser untouched. *)
Lemma parse_html_run soup (s : Session page) :
  readable soup ->
  exists s',
    parse_html soup s = (Ok tt, s') /\
    contexts s' = contexts s /\
    grew s s'
      (row_of (website (machine s)) <$> observations (dexel_products soup))
      (line_of (website (machine s)) <$> observations (dexel_products soup)).
Proof.
  unfold parse_html, readable.
  generalize (dexel_products soup) as cards.
  intros cards. revert s.
  induction cards as [|card cards IH]; intros s H.
  - exists s. split; [reflexivity|]. split; [reflexivity | apply grew_refl].
  - apply Forall_cons in H as [[o Ho] H].
    rewrite (observations_cons _ _ _ Ho). simpl for_each.
    set (s1 := on_machine
                 (fun st => append_row (row_of (website st) o)
                              (emit (line_of (website st) o) st)) s).
    assert (E : (o <- lift_reading (read_card card);;
                 lift_machine (Dexel.record o)) s = (Ok tt, s1)).
    { unfold bind, lift_reading. rewrite Ho. reflexivity. }
    rewrite (bind_ok _ _ _ _ _ E).
    destruct (IH s1 H) as (s' & Es & Hc & Hg).
    exists s'. split; [exact Es|]. split; [exact Hc|].
    change (website (machine s1)) with (website (machine s)) in Hg.
    apply (grew_trans s s1 s' [_] _ [_] _); [|exact Hg].
    unfold grew. simpl. auto.
Qed.

(** ** The loop on a result set *)

Lemma grew_website (s s' : Session page) rows evs :
  grew s s' rows evs -> website (machine s') = website (machine s).
Proof. now intros (_ & W & _). Qed.

Lemma grew_emit (s s1 : Session page) rows evs e :
  grew s s1 rows evs -> grew s (on_machine (emit e) s1) rows (evs ++ [e]).
Proof.
  intros (N & W & D & T). unfold grew. simpl.
  now rewrite N, W, D, T, app_assoc.
Qed.

Lemma grew_on_contexts (s s1 : Session page) rows evs f :
  grew s s1 rows evs -> grew s (on_contexts f s1) rows evs.
Proof. trivial. Qed.

(** One turn of the loop on page [p], up to the decision. *)
Lemma turn_run c inputs p (s : Session page) :
  contexts s !! c = Some p ->
  readable (content site p) ->
  exists s1,
    contexts s1 = contexts s /\
    grew s s1 (page_rows site (website (machine s)) p)
      (ReadContent c ::
       (line_of (website (machine s)) <$>
          observations (dexel_products (content site p)))) /\
    forall fuel,
      paginate site (S fuel) c inputs s =
        match next_action (footer site p) with
        | StopOnePage => happen (Logged (OnlyOnePage inputs)) s1
        | Follow l =>
            (perform site c (ClickPagination l) ;;
             paginate site fuel c inputs) s1
        | StopLastPage => (Ok tt, s1)
        | NoListItem => (Raise TimeoutError, s1)
        end.
Proof.
  intros Hc Hr.
  destruct (parse_html_run (content site p)
              (on_machine (emit (ReadContent c)) s) Hr)
    as (s1 & Ep & Hc1 & Hg).
  exists s1. split; [exact Hc1|]. split.
  - apply (grew_trans s (on_machine (emit (ReadContent c)) s) s1
             [] _ [_] _); [|exact Hg].
    unfold grew. simpl. now rewrite app_nil_r.
  - intros fuel. simpl paginate.
    rewrite (bind_ok _ _ _ _ _ (page_content_run _ _ _ Hc)).
    rewrite (bind_ok _ _ _ _ _ Ep).
    assert (Hs : contexts s1 !! c = Some p) by now rewrite Hc1.
    rewrite (bind_ok _ _ _ _ _ (showing_run _ _ _ Hs)).
    now destruct (next_action (footer site p)).
Qed.

(** On a finite result set the loop returns once it has taken one turn
    per page, in order: it leaves the rows and the events of those
    turns, and the tab on the last page. *)
Lemma paginate_run c inputs pages :
  result_set site pages ->
  forall (s : Session page) fuel first,
    head pages = Some first ->
    contexts s !! c = Some first ->
    Forall (fun p => readable (content site p)) pages ->
    length pages <= fuel ->
    exists s' final_page,
      paginate site fuel c inputs s = (Ok tt, s') /\
      last pages = Some final_page /\
      contexts s' = <[c := final_page]> (contexts s) /\
      grew s s'
        (flat_map (page_rows site (website (machine s))) pages)
        (flat_map (page_events site c (website (machine s)) inputs) pages).
Proof.
  induction 1 as [p F | p q rest L R IH];
    intros s fuel first Hh Hc Hr Hf; injection Hh as <-.
  - destruct fuel as [|fuel]; [simpl in Hf; lia|].
    apply Forall_cons in Hr as [Hr _].
    destruct (turn_run c inputs p s Hc Hr) as (s1 & Hc1 & Hg & E).
    simpl flat_map. rewrite !app_nil_r. unfold page_events, footer_events.
    destruct (final_stops _ F) as [N | N]; rewrite E, N.
    + eexists _, p. split; [reflexivity|]. split; [reflexivity|]. split.
      * simpl. rewrite Hc1. symmetry. now apply insert_id.
      * exact (grew_emit _ _ _ _ _ Hg).
    + exists s1, p. split; [reflexivity|]. split; [reflexivity|]. split.
      * rewrite Hc1. symmetry. now apply insert_id.
      * now rewrite app_nil_r.
  - destruct fuel as [|fuel]; [simpl in Hf; lia|].
    apply Forall_cons in Hr as [Hr Hrs].
    destruct (turn_run c inputs p s Hc Hr) as (s1 & Hc1 & Hg & E).
    destruct (leads_to_follows _ _ L) as (l & N & A).
    rewrite E, N.
    assert (Hs : contexts s1 !! c = Some p) by now rewrite Hc1.
    rewrite (bind_ok _ _ _ _ _ (perform_run _ _ _ _ _ Hs A)).
    set (s2 := on_contexts _ _).
    assert (Hc2 : contexts s2 !! c = Some q) by apply lookup_insert_eq.
    destruct (IH s2 fuel q eq_refl Hc2 Hrs) as (s' & fin & Er & Hl & Hc' & Hg').
    { simpl in Hf |- *. lia. }
    exists s', fin. split; [exact Er|]. split; [exact Hl|]. split.
    + rewrite Hc'. unfold s2. simpl. rewrite Hc1. apply insert_insert_eq.
    + assert (G2 : grew s s2 (page_rows site (website (machine s)) p)
                     (page_events site c (website (machine s)) inputs p)).
      { unfold page_events, footer_events. rewrite N.
        exact (grew_on_contexts _ _ _ _ _
                 (grew_emit _ _ _ _ (Did c (ClickPagination l)) Hg)). }
      change (website (machine s2)) with (website (machine s1)) in Hg'.
      rewrite (grew_website _ _ _ _ Hg) in Hg'.
      exact (grew_trans _ _ _ _ _ _ _ G2 Hg').
Qed.

(** ** Counting reads and clicks *)

Lemma reads_app c e1 e2 : reads c (e1 ++ e2) = (reads c e1 + reads c e2)%nat.
Proof. unfold reads. now rewrite List.filter_app, length_app. Qed.

Lemma clicks_app c e1 e2 :
  clicks c (e1 ++ e2) = (clicks c e1 + clicks c e2)%nat.
Proof. unfold clicks. now rewrite List.filter_app, length_app. Qed.

Lemma reads_lines c w os : reads c (line_of w <$> os) = 0%nat.
Proof. induction os as [|o os IH]; [reflexivity | exact IH]. Qed.

Lemma clicks_lines c w os : clicks c (line_of w <$> os) = 0%nat.
Proof. induction os as [|o os IH]; [reflexivity | exact IH]. Qed.






End OverASite.

Lemma three_pages_result_set :
  result_set Fixtures.three_pages [1; 2; 3]%nat.
Proof.
  apply result_set_next.
  { exists " Last >> ". split; [reflexivity|]. left. now split. }
  apply result_set_next.
  { exists "Next >". split; [reflexivity|]. right.
    split; [reflexivity|]. split; [|reflexivity].
    exists None. now split. }
  apply result_set_last. right. now exists "2".
Qed.

Lemma three_pages_readable :
  Forall (fun p => readable (content Fixtures.three_pages p)) [1; 2; 3]%nat.
Proof. repeat constructor; eexists; reflexivity. Qed.


End PagingFacts.

(* ================================================================== *)
(** * Site A: one browser context per (branch, input) pair *)
(* ================================================================== *)

Module SessionFacts.

Import Base Relations Steps Dexel Paging PagingFacts NationalFacts.

Section OverASite.

Context {page : Type}.
Variable site : Site page.

(** ** A pair that goes well *)

Lemma after_actions_none actions :
  foldl (fun tab a => tab ≫= fun p : page => act site p a) None actions
    = None.
Proof. induction actions as [|a l IH]; [reflexivity | exact IH]. Qed.

Lemma after_actions_cons a actions p q :
  after_actions site (a :: actions) p = Some q ->
  exists p1, act site p a = Some p1 /\ after_actions site actions p1 = Some q.
Proof.
  unfold after_actions. simpl.
  destruct (act site p a) as [p1|]; [now exists p1|].
  now rewrite after_actions_none.
Qed.

Lemma after_actions_app l1 l2 p q :
  after_actions site (l1 ++ l2) p = Some q ->
  exists p1, after_actions site l1 p = Some p1 /\
             after_actions site l2 p1 = Some q.
Proof.
  revert p. induction l1 as [|a l1 IH]; intros p H.
  - now exists p.
  - apply after_actions_cons in H as (p1 & Ha & H).
    destruct (IH _ H) as (p2 & H1 & H2). exists p2. split; [|exact H2].
    unfold after_actions in *. simpl. now rewrite Ha.
Qed.

(** A list of actions that all succeed, performed in context [c]. *)
Lemma perform_all_run c actions : forall p q (s : Session page),
  after_actions site actions p = Some q ->
  contexts s !! c = Some p ->
  exists s',
    for_each actions (perform site c) s = (Ok tt, s') /\
    contexts s' = <[c := q]> (contexts s) /\
    grew s s' [] (Did c <$> actions).
Proof.
  induction actions as [|a actions IH]; intros p q s H Hc.
  - injection H as <-. exists s. split; [reflexivity|].
    split; [symmetry; now apply insert_id | apply grew_refl].
  - apply after_actions_cons in H as (p1 & Ha & H).
    simpl for_each. rewrite (bind_ok _ _ _ _ _ (perform_run _ _ _ _ _ _ Hc Ha)).
    set (s1 := on_contexts _ _).
    destruct (IH p1 q s1 H (lookup_insert_eq _ _ _)) as (s' & E & Hc' & G).
    exists s'. split; [exact E|]. split.
    + rewrite Hc'. unfold s1. simpl. apply insert_insert_eq.
    + apply (grew_trans s s1 s' [] [] [Did c a] _); [|exact G].
      unfold grew. simpl. now rewrite app_nil_r.
Qed.

(** [scrape_branch] on a branch picker whose button and wait succeed
    and lead to the first page of a result set. *)
Lemma scrape_branch_run fuel c branch input p1 p2 pages first
    (s : Session page) :
  contexts s !! c = Some p1 ->
  act site p1 (ClickRole "button" "Select This Branch"
                 (Some (Z.of_nat branch))) = Some p2 ->
  act site p2 (WaitForTimeout 15000) = Some first ->
  head pages = Some first ->
  result_set site pages ->
  Forall (fun p => readable (content site p)) pages ->
  length pages <= fuel ->
  exists s' final_page,
    scrape_branch site fuel c branch input s = (Ok tt, s') /\
    contexts s' = <[c := final_page]> (contexts s) /\
    grew s s'
      (flat_map (page_rows site (website (machine s))) pages)
      ((Did c <$> [ClickRole "button" "Select This Branch"
                     (Some (Z.of_nat branch));
                   WaitForTimeout 15000]) ++
       flat_map (page_events site c (website (machine s)) input) pages).
Proof.
  intros Hc H1 H2 Hh R Hr Hf. unfold scrape_branch.
  rewrite (bind_ok _ _ _ _ _ (perform_run _ _ _ _ _ _ Hc H1)).
  set (s1 := on_contexts _ _).
  rewrite (bind_ok _ _ _ _ _
             (perform_run _ c _ _ _ s1 (lookup_insert_eq _ _ _) H2)).
  set (s2 := on_contexts _ _).
  destruct (paginate_run site c input pages R s2 fuel first Hh
              (lookup_insert_eq _ _ _) Hr Hf)
    as (s' & fin & E & _ & C & G).
  exists s', fin. split; [exact E|]. split.
  - rewrite C. unfold s2, s1. simpl. now rewrite !insert_insert_eq.
  - apply (grew_trans s s2 s' [] _ [_; _] _); [|exact G].
    unfold grew. simpl. now rewrite app_nil_r, <- app_assoc.
Qed.

(** One pair that goes well: the events are those of [pair_events], in
    the context whose identifier was next; the rows are those of its
    pages; the context is gone from the store afterwards. *)
Lemma scrape_pair_run fuel branch input pages (s : Session page) :
  pair_pages site branch input pages ->
  length pages <= fuel ->
  exists s',
    scrape_pair site fuel branch input s = (Ok tt, s') /\
    next_context s' = S (next_context s) /\
    contexts s' = delete (next_context s) (contexts s) /\
    website (machine s') = website (machine s) /\
    db (machine s') =
      db (machine s) ++ flat_map (page_rows site (website (machine s))) pages /\
    trace (machine s') =
      trace (machine s) ++
      pair_events site (next_context s) (website (machine s)) branch input
        pages.
Proof.
  intros (first & rest & -> & Ha & R & Hr) Hf.
  set (c := next_context s). set (w := website (machine s)).
  unfold opening_actions in Ha.
  apply after_actions_app in Ha as (p1 & Hnav & Hsel).
  apply after_actions_cons in Hsel as (p2 & Hs1 & Hsel).
  apply after_actions_cons in Hsel as (p3 & Hs2 & Hsel).
  injection Hsel as ->.
  unfold scrape_pair.
  set (s1 := on_machine (emit (Logged (ScrapingNewInput input))) s).
  rewrite (bind_ok _ _ _ _ s1 (eq_refl : happen _ s = (Ok tt, s1))).
  set (s2 := on_machine (emit (NewContext c)) (bump_context s1)).
  rewrite (bind_ok _ _ _ _ s2 (eq_refl : new_context s1 = (Ok c, s2))).
  set (s3 := on_machine (emit (NewPage c))
               (on_contexts (insert c (blank site)) s2)).
  rewrite (bind_ok _ _ _ _ s3 (eq_refl : new_page site c s2 = (Ok tt, s3))).
  destruct (perform_all_run c (nav_actions input) _ _ s3 Hnav
              (lookup_insert_eq _ _ _)) as (s4 & E4 & C4 & G4).
  assert (N4 : nav_to_branch_page site c input s3 = (Ok c, s4)).
  { rewrite nav_to_branch_page_steps. now rewrite (bind_ok _ _ _ _ _ E4). }
  rewrite (bind_ok _ _ _ _ _ N4).
  assert (L4 : contexts s4 !! c = Some p1)
    by (rewrite C4; apply lookup_insert_eq).
  destruct (scrape_branch_run fuel c branch input p1 p2 (first :: rest)
              first s4 L4 Hs1 Hs2 eq_refl R Hr Hf)
    as (s7 & fin & E7 & C7 & G7).
  rewrite (bind_ok _ _ _ _ _ E7).
  eexists. split; [reflexivity|].
  destruct G4 as (N4' & W4 & D4 & T4). destruct G7 as (N7 & W7 & D7 & T7).
  simpl in *.
  split; [now rewrite N7, N4'|]. split.
  { rewrite C7, C4. simpl. now rewrite !delete_insert_eq. }
  split; [now rewrite W7, W4|]. split.
  { rewrite D7, D4, W4. now rewrite app_nil_r. }
  rewrite T7, T4, W4. unfold pair_events, opening_actions.
  rewrite fmap_app. simpl. rewrite <- !app_assoc. simpl.
  now rewrite <- !app_assoc.
Qed.

(** ** A run that goes well *)

Lemma ran_trans (s1 s2 s3 : Session page) n1 n2 r1 r2 e1 e2 :
  ran s1 s2 n1 r1 e1 -> ran s2 s3 n2 r2 e2 ->
  ran s1 s3 (n1 + n2) (r1 ++ r2) (e1 ++ e2).
Proof.
  intros (C1 & N1 & W1 & D1 & T1) (C2 & N2 & W2 & D2 & T2). unfold ran.
  rewrite C2, N2, W2, D2, T2, N1, W1, D1, T1, !app_assoc.
  repeat split; lia.
Qed.

Lemma ran_website (s s' : Session page) n rows evs :
  ran s s' n rows evs -> website (machine s') = website (machine s).
Proof. now intros (_ & _ & W & _). Qed.

(** The inner loop of [scrape] for one branch. *)
Lemma pairs_run fuel branch pages_of inputs : forall (s : Session page),
  contexts s = ∅ ->
  pairs_go_well site fuel pages_of inputs branch ->
  exists s',
    for_each inputs (scrape_pair site fuel branch) s = (Ok tt, s') /\
    ran s s' (length inputs)
      (pairs_rows site (website (machine s)) branch pages_of inputs)
      (pairs_events site (next_context s) (website (machine s)) branch
         pages_of inputs).
Proof.
  unfold pairs_go_well.
  induction inputs as [|input inputs IH]; intros s Hc H.
  - exists s. split; [reflexivity|]. unfold ran. simpl.
    rewrite !app_nil_r. repeat split; [assumption | lia].
  - apply Forall_cons in H as [[Hp Hf] H].
    destruct (scrape_pair_run fuel branch input _ s Hp Hf)
      as (s1 & E1 & N1 & C1 & W1 & D1 & T1).
    assert (C1' : contexts s1 = ∅) by now rewrite C1, Hc, delete_empty.
    destruct (IH s1 C1' H) as (s' & E & R).
    exists s'. simpl for_each. rewrite (bind_ok _ _ _ _ _ E1).
    split; [exact E|].
    rewrite W1, N1 in R.
    assert (R1 : ran s s1 1
                   (flat_map (page_rows site (website (machine s)))
                      (pages_of branch input))
                   (pair_events site (next_context s) (website (machine s))
                      branch input (pages_of branch input))).
    { unfold ran. repeat split; try assumption. lia. }
    exact (ran_trans _ _ _ _ _ _ _ _ _ R1 R).
Qed.

(** The outer loop of [scrape]. *)
Lemma branches_run fuel pages_of inputs branches : forall (s : Session page),
  contexts s = ∅ ->
  Forall (pairs_go_well site fuel pages_of inputs) branches ->
  exists s',
    for_each branches
      (fun branch =>
         happen (Logged (ScrapingBranch branch)) ;;
         for_each inputs (scrape_pair site fuel branch)) s = (Ok tt, s') /\
    ran s s' (length branches * length inputs)
      (branches_rows site (website (machine s)) pages_of inputs branches)
      (branches_events site (next_context s) (website (machine s)) pages_of
         inputs branches).
Proof.
  induction branches as [|branch branches IH]; intros s Hc H.
  - exists s. split; [reflexivity|]. unfold ran. simpl.
    rewrite !app_nil_r. repeat split; [assumption | lia].
  - apply Forall_cons in H as [Hb H].
    set (s0 := on_machine (emit (Logged (ScrapingBranch branch))) s).
    destruct (pairs_run fuel branch pages_of inputs s0 Hc Hb)
      as (s1 & E1 & R1).
    destruct (IH s1 (proj1 R1) H) as (s' & E & R).
    exists s'. simpl for_each.
    assert (E0 : (happen (Logged (ScrapingBranch branch)) ;;
                  for_each inputs (scrape_pair site fuel branch)) s
                 = (Ok tt, s1)).
    { now rewrite (bind_ok _ _ _ _ s0
                     (eq_refl : happen (Logged (ScrapingBranch branch)) s
                                = (Ok tt, s0))). }
    rewrite (bind_ok _ _ _ _ _ E0). split; [exact E|].
    rewrite (ran_website _ _ _ _ _ R1) in R.
    destruct R1 as (C1 & N1 & W1 & D1 & T1). rewrite N1 in R.
    assert (R0 : ran s s1 (length inputs)
                   (pairs_rows site (website (machine s)) branch pages_of
                      inputs)
                   (Logged (ScrapingBranch branch) ::
                    pairs_events site (next_context s) (website (machine s))
                      branch pages_of inputs)).
    { unfold ran. simpl in *.
      rewrite C1, N1, W1, D1, T1, <- app_assoc. auto. }
    exact (ran_trans _ _ _ _ _ _ _ _ _ R0 R).
Qed.

(** [scrape] when the probe and every pair go well. *)
Lemma scrape_run fuel pages_of first others probe (s : Session page) :
  contexts s = ∅ ->
  after_actions site (nav_actions first) (blank site) = Some probe ->
  Forall (pairs_go_well site fuel pages_of (first :: others))
         (seq 0 (branch_buttons site probe)) ->
  exists s',
    scrape site fuel (first :: others) s = (Ok tt, s') /\
    ran s s' (1 + branch_buttons site probe * length (first :: others))
      (branches_rows site (website (machine s)) pages_of (first :: others)
         (seq 0 (branch_buttons site probe)))
      (scrape_events site (next_context s) (website (machine s)) pages_of
         first (first :: others) (branch_buttons site probe)).
Proof.
  intros Hc Hnav H. set (c := next_context s). unfold scrape.
  set (s1 := on_machine (emit Launched) s).
  rewrite (bind_ok _ _ _ _ s1 (eq_refl : happen _ s = (Ok tt, s1))).
  set (s2 := on_machine (emit (NewContext c)) (bump_context s1)).
  rewrite (bind_ok _ _ _ _ s2 (eq_refl : new_context s1 = (Ok c, s2))).
  set (s3 := on_machine (emit (NewPage c))
               (on_contexts (insert c (blank site)) s2)).
  rewrite (bind_ok _ _ _ _ s3 (eq_refl : new_page site c s2 = (Ok tt, s3))).
  rewrite (bind_ok _ _ _ _ s3 (eq_refl : ret first s3 = (Ok first, s3))).
  destruct (perform_all_run c (nav_actions first) _ _ s3 Hnav
              (lookup_insert_eq _ _ _)) as (s4 & E4 & C4 & G4).
  assert (N4 : nav_to_branch_page site c first s3 = (Ok c, s4)).
  { rewrite nav_to_branch_page_steps. now rewrite (bind_ok _ _ _ _ _ E4). }
  rewrite (bind_ok _ _ _ _ _ N4).
  assert (L4 : contexts s4 !! c = Some probe)
    by (rewrite C4; apply lookup_insert_eq).
  rewrite (bind_ok _ _ _ _ _ (showing_run _ _ _ L4)).
  set (s5 := on_machine (emit (ClosedContext c)) (on_contexts (delete c) s4)).
  rewrite (bind_ok _ _ _ _ s5 (eq_refl : close_context c s4 = (Ok tt, s5))).
  assert (C5 : contexts s5 = ∅).
  { unfold s5. simpl. rewrite C4. simpl.
    now rewrite !delete_insert_eq, Hc, delete_empty. }
  destruct (branches_run fuel pages_of (first :: others) _ s5 C5 H)
    as (s6 & E6 & R6).
  rewrite (bind_ok _ _ _ _ _ E6).
  eexists. split; [reflexivity|].
  destruct G4 as (N4' & W4 & D4 & T4).
  destruct R6 as (C6 & N6 & W6 & D6 & T6).
  unfold ran. simpl in *.
  rewrite C6, N6, W6, D6, T6, N4', W4, D4, T4. simpl.
  rewrite length_seq, app_nil_r.
  repeat split; [lia|].
  unfold scrape_events. rewrite <- !app_assoc. reflexivity.
Qed.

(** ** Any pair, however it ends *)

#[export] Instance inside_preorder c : PreOrder (@inside page c).
Proof.
  split.
  - intros s. split; reflexivity.
  - intros s1 s2 s3 [N1 E1] [N2 E2]. split; [congruence|].
    etransitivity; eassumption.
Qed.

Lemma happen_inside c e :
  within c e -> keeps (inside c) (@happen page e).
Proof.
  intros H s. split; [reflexivity|]. exists [e]. split; [reflexivity|].
  now constructor.
Qed.

Lemma on_contexts_inside c f :
  keeps (inside c) (modify (@on_contexts page f)).
Proof. intros s. split; simpl; reflexivity. Qed.

Lemma showing_inside c c' : keeps (inside c) (@showing page c').
Proof.
  intros s. unfold showing, bind, get.
  destruct (contexts s !! c'); reflexivity.
Qed.

Ltac and_then lemma := apply keeps_bind; [exact _ | lemma | intros ?].

Lemma perform_inside c a : keeps (inside c) (perform site c a).
Proof.
  unfold perform.
  and_then ltac:(apply showing_inside).
  and_then ltac:(apply happen_inside; reflexivity).
  destruct (act site _ a);
    [apply on_contexts_inside | apply keeps_raise; exact _].
Qed.

Lemma page_content_inside c : keeps (inside c) (page_content site c).
Proof.
  unfold page_content.
  and_then ltac:(apply showing_inside).
  and_then ltac:(apply happen_inside; reflexivity).
  apply keeps_ret; exact _.
Qed.

Lemma record_inside c o :
  keeps (inside c) (@lift_machine page _ (Dexel.record o)).
Proof.
  intros s. unfold lift_machine, Dexel.record.
  rewrite StoreFacts.add_to_database_run. split; [reflexivity|].
  eexists [_]. split; [reflexivity|]. now constructor.
Qed.

Lemma parse_html_inside c soup :
  keeps (inside c) (@parse_html page soup).
Proof.
  unfold parse_html. apply keeps_for_each; [exact _ | intros card].
  and_then ltac:(apply keeps_lift_reading; exact _).
  apply record_inside.
Qed.

Lemma paginate_inside c fuel inputs :
  keeps (inside c) (paginate site fuel c inputs).
Proof.
  induction fuel as [|fuel IH]; simpl;
    [apply keeps_out_of_fuel; exact _|].
  and_then ltac:(apply page_content_inside).
  and_then ltac:(apply parse_html_inside).
  and_then ltac:(apply showing_inside).
  destruct (next_action (footer site _)).
  - apply happen_inside. exact I.
  - and_then ltac:(apply perform_inside). exact IH.
  - apply keeps_ret; exact _.
  - apply keeps_raise; exact _.
Qed.

Lemma rest_of_pair_inside c fuel branch input :
  keeps (inside c)
    (for_each (nav_actions input) (perform site c) ;;
     scrape_branch site fuel c branch input ;;
     close_context c).
Proof.
  and_then ltac:(apply keeps_for_each;
                 [exact _ | intros a; apply perform_inside]).
  and_then ltac:(idtac).
  - unfold scrape_branch.
    and_then ltac:(apply perform_inside).
    and_then ltac:(apply perform_inside).
    apply paginate_inside.
  - unfold close_context.
    and_then ltac:(apply on_contexts_inside).
    apply happen_inside. reflexivity.
Qed.

(** Whatever happens to a pair, its context is the one whose identifier
    was next, it is created and given a tab right after the pair's log
    line, no other context is created, and every later event of the
    pair touches that context only. *)
Lemma scrape_pair_inside fuel branch input (s : Session page) :
  next_context (snd (scrape_pair site fuel branch input s))
    = S (next_context s) /\
  exists tail,
    trace (machine (snd (scrape_pair site fuel branch input s))) =
      trace (machine s) ++
      [Logged (ScrapingNewInput input); NewContext (next_context s);
       NewPage (next_context s)] ++ tail /\
    Forall (within (next_context s)) tail.
Proof.
  set (c := next_context s).
  set (s1 := on_machine (emit (Logged (ScrapingNewInput input))) s).
  set (s2 := on_machine (emit (NewContext c)) (bump_context s1)).
  set (s3 := on_machine (emit (NewPage c))
               (on_contexts (insert c (blank site)) s2)).
  assert (E : scrape_pair site fuel branch input s =
              (for_each (nav_actions input) (perform site c) ;;
               scrape_branch site fuel c branch input ;;
               close_context c) s3).
  { unfold scrape_pair.
    rewrite (bind_ok _ _ _ _ s1 (eq_refl : happen _ s = (Ok tt, s1))).
    rewrite (bind_ok _ _ _ _ s2 (eq_refl : new_context s1 = (Ok c, s2))).
    rewrite (bind_ok _ _ _ _ s3
               (eq_refl : new_page site c s2 = (Ok tt, s3))).
    pose proof (nav_to_branch_page_steps site c input s3) as Enav.
    unfold bind in Enav |- *. rewrite Enav.
    now destruct (for_each (nav_actions input) (perform site c) s3)
      as [[[]| |] s4]. }
  rewrite E.
  destruct (rest_of_pair_inside c fuel branch input s3) as (N & tail & T & F).
  split; [now rewrite N|].
  exists tail. split; [|exact F].
  rewrite T. simpl. now rewrite <- !app_assoc.
Qed.

(** C7.  For every (branch, input) pair, however it ends: the pair
    runs in the context whose identifier was next and had never been
    handed out; that context is created and given a blank tab right
    after the pair's log line; no other context is created; and every
    later event of the pair touches that context only.  For a pair that
    goes well: its events are the opening actions from the home page
    (navigation, the three dropdowns, the search, the branch button with
    the pair's ordinal, the long wait), all in the new context and
    starting from a blank tab, then its pages, then the closing of the
    context, which is gone from the store afterwards.  For a run whose
    pairs all go well: the probe runs in one context and is closed, each
    pair then runs in a context of its own, numbered in order, and no
    context is open at the end. *)
Theorem every_pair_runs_in_a_fresh_context :
  (forall fuel branch input (s : Session page),
     next_context (snd (scrape_pair site fuel branch input s))
       = S (next_context s) /\
     exists tail,
       trace (machine (snd (scrape_pair site fuel branch input s))) =
         trace (machine s) ++
         [Logged (ScrapingNewInput input); NewContext (next_context s);
          NewPage (next_context s)] ++ tail /\
       Forall (within (next_context s)) tail) /\
  (forall fuel branch input pages (s : Session page),
     pair_pages site branch input pages ->
     length pages <= fuel ->
     exists s',
       scrape_pair site fuel branch input s = (Ok tt, s') /\
       next_context s' = S (next_context s) /\
       contexts s' = delete (next_context s) (contexts s) /\
       db (machine s') =
         db (machine s) ++
         flat_map (page_rows site (website (machine s))) pages /\
       trace (machine s') =
         trace (machine s) ++
         pair_events site (next_context s) (website (machine s)) branch
           input pages) /\
  (forall fuel pages_of first others probe (s : Session page),
     contexts s = ∅ ->
     after_actions site (nav_actions first) (blank site) = Some probe ->
     Forall (pairs_go_well site fuel pages_of (first :: others))
            (seq 0 (branch_buttons site probe)) ->
     exists s',
       scrape site fuel (first :: others) s = (Ok tt, s') /\
       ran s s' (1 + branch_buttons site probe * length (first :: others))
         (branches_rows site (website (machine s)) pages_of
            (first :: others) (seq 0 (branch_buttons site probe)))
         (scrape_events site (next_context s) (website (machine s))
            pages_of first (first :: others) (branch_buttons site probe))).
Proof.
  split; [exact scrape_pair_inside|]. split; [|exact scrape_run].
  intros fuel branch input pages s Hp Hf.
  destruct (scrape_pair_run fuel branch input pages s Hp Hf)
    as (s' & E & N & C & _ & D & T).
  now exists s'.
Qed.

End OverASite.

Lemma three_pages_pairs_go_well inputs branch :
  (branch < 2)%nat ->
  pairs_go_well Fixtures.three_pages 3 (fun _ _ => [1; 2; 3]%nat) inputs
    branch.
Proof.
  intros Hb. unfold pairs_go_well.
  induction inputs as [|[[w a] r] inputs IH]; constructor; [|exact IH].
  split; [|simpl; lia].
  exists 1%nat, [2; 3]%nat. split; [reflexivity|].
  split; [|split; [exact three_pages_result_set
                  | exact three_pages_readable]].
  destruct branch as [|[|branch]]; [reflexivity | reflexivity | lia].
Qed.

(** C7 on the site [three_pages], two inputs, two branches: the run
    returns, used the contexts 0 (the probe) to 4, left none open, and
    its events are those of [scrape_events]. *)
Lemma fresh_context_witness :
  exists s',
    scrape Fixtures.three_pages 3 [(205, 55, 16)%Z; (225, 50, 16)%Z]
      (start 0) = (Ok tt, s') /\
    contexts s' = ∅ /\
    next_context s' = 5%nat /\
    trace (machine s') =
      scrape_events Fixtures.three_pages 0 "Dexel"
        (fun _ _ => [1; 2; 3]%nat) (205, 55, 16)%Z
        [(205, 55, 16)%Z; (225, 50, 16)%Z] 2.
Proof.
  destruct (proj2 (proj2 (every_pair_runs_in_a_fresh_context
                            Fixtures.three_pages))
              3%nat (fun _ _ => [1; 2; 3]%nat) (205, 55, 16)%Z
              [(225, 50, 16)%Z] 12%nat (start 0) eq_refl eq_refl)
    as (s' & E & C & N & _ & _ & T).
  { change (seq 0 _) with [0; 1]%nat.
    constructor; [apply three_pages_pairs_go_well; lia|].
    constructor; [apply three_pages_pairs_go_well; lia|].
    constructor. }
  exists s'. split; [exact E|]. split; [exact C|].
  split; [exact N | exact T].
Defined.

End SessionFacts.

(* ================================================================== *)
(** * More on the fetcher *)
(* ================================================================== *)

Module FetchMore.

Import Base FetchFacts.

(** What [fetch_html_timed] does before it fetches: it leaves the state
    as it is, or sleeps; either way the requests sent and the timestamp
    are untouched. *)
Lemma fetch_html_timed_wait web url st :
  exists st1,
    fetch_html_timed web url st =
      try_except (fetch_html web url) (fun _ => raise (RuntimeError url))
        st1 /\
    served st1 = served st /\
    last_request_time st1 = last_request_time st /\
    db st1 = db st /\
    (st1 = st \/
     exists t,
       last_request_time st = Some t /\ truthy t = true /\
       Qle_bool (clock st - t) 1 = true /\
       st1 = emit (Slept (1 - (clock st - t))%Q)
               (tick (1 - (clock st - t))%Q st)).
Proof.
  destruct (last_request_time st) as [t|] eqn:Hl.
  - destruct (truthy t) eqn:Ht.
    + destruct (Qle_bool (clock st - t) 1) eqn:Hle.
      * eexists. split; [exact (fetch_html_timed_waits _ _ _ _ Hl Ht Hle)|].
        split; [reflexivity|]. split; [exact Hl|]. split; [reflexivity|].
        right. now exists t.
      * exists st. split; [exact (fetch_html_timed_goes _ _ _ _ Hl Ht Hle)|].
        auto.
    + exists st. split; [|auto].
      unfold fetch_html_timed, try_except, bind, get, ret. simpl.
      now rewrite Hl, Ht.
  - exists st. split; [|auto].
    unfold fetch_html_timed, try_except, bind, get, ret. simpl.
    now rewrite Hl.
Qed.

Lemma try_except_fetch web url st :
  try_except (fetch_html web url) (fun _ => raise (RuntimeError url)) st =
  (match fst (fetch_html web url st) with
   | Raise (RequestException _) => Raise (RuntimeError url)
   | other => other
   end, snd (fetch_html web url st)).
Proof.
  unfold try_except.
  now destruct (fetch_html web url st) as [[a|[]|] st'].
Qed.

(** X1.  [fetch_html_timed] never lets a [RequestException] out.  It
    returns the parsed page exactly when the request is answered with a
    status that passes [raise_for_status]; when the request is not
    answered, or answered with a status that does not pass, it raises
    [RuntimeError] for the URL. *)
Theorem timed_fetch_outcomes web url st :
  fst (fetch_html_timed web url st) =
    match serve web (served st) url with
    | ConnectionError _ => Raise (RuntimeError url)
    | Response _ status body =>
        if status_raises web status then Raise (RuntimeError url)
        else Ok body
    end.
Proof.
  destruct (fetch_html_timed_wait web url st) as (st1 & -> & Hs & _).
  rewrite try_except_fetch. simpl. rewrite <- Hs.
  destruct (serve web (served st1) url) as [lat|lat status body] eqn:E.
  - now rewrite (fetch_html_connection_error _ _ _ _ E).
  - rewrite (fetch_html_response _ _ _ _ _ _ E). simpl.
    now destruct (status_raises web status).
Qed.

(** X2.  With a timestamp that is set and not zero, and a clock that has
    not gone back, the request of [fetch_html_timed] completes at least
    one second after the timestamp: when at most a second has gone by it
    first sleeps exactly for the rest of the second, otherwise it does
    not sleep.  When the request is answered, the timestamp and the
    clock then both read the moment of completion, so the same holds for
    the call after it. *)
Theorem timed_fetch_keeps_a_second_apart web url st t :
  last_request_time st = Some t ->
  ~ (t == 0)%Q ->
  (t <= clock st)%Q ->
  (0 <= latency_of (serve web (served st) url))%Q ->
  exists before status t2,
    trace (snd (fetch_html_timed web url st)) =
      trace st ++ before ++ [Requested url status t2] /\
    (t + 1 <= t2)%Q /\
    ((clock st - t <= 1)%Q ->
     before = [Slept (1 - (clock st - t))%Q] /\
     (t2 == t + 1 + latency_of (serve web (served st) url))%Q) /\
    ((1 < clock st - t)%Q ->
     before = [] /\
     (t2 == clock st + latency_of (serve web (served st) url))%Q) /\
    (status <> None ->
     last_request_time (snd (fetch_html_timed web url st)) = Some t2 /\
     clock (snd (fetch_html_timed web url st)) = t2).
Proof.
  intros Hl Hnz Hmono Hlat.
  pose proof (truthy_nonzero _ Hnz) as Ht.
  assert (After : forall st1,
            served st1 = served st ->
            exists status,
              trace (snd (fetch_html web url st1)) =
                trace st1 ++
                [Requested url status
                   (clock st1 + latency_of (serve web (served st) url))%Q] /\
              (status <> None ->
               last_request_time (snd (fetch_html web url st1)) =
                 Some (clock st1 + latency_of (serve web (served st) url))%Q /\
               clock (snd (fetch_html web url st1)) =
                 (clock st1 + latency_of (serve web (served st) url))%Q)).
  { intros st1 Hs. rewrite <- Hs.
    destruct (serve web (served st1) url) as [lat|lat status body] eqn:E.
    - rewrite (fetch_html_connection_error _ _ _ _ E). exists None.
      split; [reflexivity|]. intros H. now contradiction H.
    - rewrite (fetch_html_response _ _ _ _ _ _ E). exists (Some status).
      split; [reflexivity|]. intros _. split; reflexivity. }
  destruct (Qle_bool (clock st - t) 1) eqn:Hle.
  - rewrite (fetch_html_timed_waits _ _ _ _ Hl Ht Hle), try_except_fetch.
    set (w := (1 - (clock st - t))%Q).
    destruct (After (emit (Slept w) (tick w st)) eq_refl) as (status & T & L).
    cbn [snd]. exists [Slept w], status. eexists.
    split; [rewrite T; simpl; now rewrite <- app_assoc|].
    apply Qle_bool_iff in Hle. simpl in *. unfold w.
    split; [lra|]. split; [intros _; split; [reflexivity | lra]|].
    split; [intros Hgt; lra | exact L].
  - rewrite (fetch_html_timed_goes _ _ _ _ Hl Ht Hle), try_except_fetch.
    destruct (After st eq_refl) as (status & T & L).
    cbn [snd]. exists [], status. eexists. split; [exact T|].
    assert (Hgt : (1 < clock st - t)%Q).
    { apply Qnot_le_lt. intros Hle'. apply Qle_bool_iff in Hle'.
      congruence. }
    split; [lra|]. split; [intros Hle1; lra|].
    split; [intros _; split; reflexivity | exact L].
Qed.

(** X2 on a scraper answered at 7, a third of a second ago, and a
    server that answers after a quarter of a second: the call sleeps for
    two thirds of a second and its request completes at 8.25. *)
Lemma timed_fetch_witness :
  exists before status t2,
    trace (snd (fetch_html_timed Fixtures.flaky_web
                  "https://www.national.co.uk/branches"
                  (count_request MoreFixtures.recently_answered))) =
      [] ++ before ++
      [Requested "https://www.national.co.uk/branches" status t2] /\
    (7 + 1 <= t2)%Q /\
    before = [Slept (1 - (7 + (1 # 3) - 7))%Q] /\
    (t2 == 7 + 1 + (1 # 4))%Q.
Proof.
  destruct (timed_fetch_keeps_a_second_apart Fixtures.flaky_web
              "https://www.national.co.uk/branches"
              (count_request MoreFixtures.recently_answered) 7 eq_refl)
    as (before & status & t2 & T & G & W & _).
  - intros Z. vm_compute in Z. discriminate.
  - vm_compute. discriminate.
  - vm_compute. discriminate.
  - exists before, status, t2. split; [exact T|]. split; [exact G|].
    apply W. vm_compute. discriminate.
Defined.

(** X3.  Before the first answered request ([last_request_time] is
    [None]), and also when the timestamp reads zero, which the test
    [if self.last_request_time:] takes for no timestamp,
    [fetch_html_timed] does not sleep: its request goes out at once. *)
Theorem timed_fetch_without_timestamp web url st :
  (last_request_time st = None \/
   exists t, last_request_time st = Some t /\ (t == 0)%Q) ->
  exists status,
    trace (snd (fetch_html_timed web url st)) =
      trace st ++
      [Requested url status
         (clock st + latency_of (serve web (served st) url))%Q].
Proof.
  intros H.
  assert (E : fetch_html_timed web url st =
              try_except (fetch_html web url)
                (fun _ => raise (RuntimeError url)) st).
  { unfold fetch_html_timed, try_except, bind, get, ret. simpl.
    destruct H as [-> | (t & -> & Hz)]; [reflexivity|].
    unfold truthy. apply Qeq_bool_iff in Hz. now rewrite Hz. }
  rewrite E, try_except_trace. apply fetch_html_trace.
Qed.

(** X3 on a scraper whose last request completed when the clock read
    zero, half a second ago: the next request goes out at once and
    completes at 0.75. *)
Lemma timed_fetch_zero_witness :
  exists status,
    trace (snd (fetch_html_timed Fixtures.flaky_web
                  "https://www.national.co.uk/branches"
                  (count_request (tick (1 # 2)
                                    (stamp 0 (init National.name 0)))))) =
      [] ++ [Requested "https://www.national.co.uk/branches" status
               (0 + (1 # 2) + (1 # 4))%Q].
Proof.
  apply (timed_fetch_without_timestamp Fixtures.flaky_web
           "https://www.national.co.uk/branches"
           (count_request (tick (1 # 2) (stamp 0 (init National.name 0))))).
  right. exists 0%Q. split; reflexivity.
Defined.

(** X4.  A request that gets no answer does not move the timestamp:
    [requests.get] raises before [last_request_time] is assigned.  The
    clock has moved by the time the request took, the request is
    counted, and [fetch_html] raises [RequestException],
    [fetch_html_timed] [RuntimeError]; the next timed fetch still
    measures from the last answered request. *)
Theorem unanswered_request_leaves_timestamp web url st latency :
  serve web (served st) url = ConnectionError latency ->
  fetch_html web url st =
    (Raise (RequestException url),
     emit (Requested url None (clock st + latency)%Q)
       (count_request (tick latency st))) /\
  last_request_time (snd (fetch_html web url st)) = last_request_time st /\
  fst (fetch_html_timed web url st) = Raise (RuntimeError url) /\
  last_request_time (snd (fetch_html_timed web url st))
    = last_request_time st /\
  served (snd (fetch_html_timed web url st)) = S (served st).
Proof.
  intros H.
  rewrite (fetch_html_connection_error _ _ _ _ H).
  split; [reflexivity|]. split; [reflexivity|].
  destruct (fetch_html_timed_wait web url st) as (st1 & -> & Hs & Hl & _).
  rewrite try_except_fetch. cbn [fst snd]. rewrite <- Hs in H.
  rewrite (fetch_html_connection_error _ _ _ _ H). simpl.
  split; [reflexivity|]. now rewrite Hl, Hs.
Qed.

(** X4 on the server [dead_web] and a scraper answered at 7. *)
Lemma unanswered_request_witness :
  last_request_time
    (snd (fetch_html_timed MoreFixtures.dead_web
            "https://www.national.co.uk/branches"
            MoreFixtures.recently_answered)) = Some 7%Q /\
  fst (fetch_html_timed MoreFixtures.dead_web
         "https://www.national.co.uk/branches"
         MoreFixtures.recently_answered)
    = Raise (RuntimeError "https://www.national.co.uk/branches").
Proof.
  destruct (unanswered_request_leaves_timestamp MoreFixtures.dead_web
              "https://www.national.co.uk/branches"
              MoreFixtures.recently_answered 1 eq_refl)
    as (_ & _ & R & L & _).
  split; [exact L | exact R].
Defined.

End FetchMore.

(* ================================================================== *)
(** * Words, and what the normalizers leave of white space *)
(* ================================================================== *)

Module WordFacts.

Import Text TextFacts Words.

















End WordFacts.

(* ================================================================== *)
(** * More on the normalizers *)
(* ================================================================== *)

Module CardMore.

Import Text TextFacts Words WordFacts CardFacts.











End CardMore.

(* ================================================================== *)
(** * The log and the table go together *)
(* ================================================================== *)

Module AccountFacts.

Import Base Relations Steps Accounts Browsing FetchFacts StoreFacts
  NationalFacts.

#[export] Instance accounted_preorder : PreOrder accounted.
Proof.
  split.
  - intros st. split; [reflexivity|]. exists [], [].
    rewrite !app_nil_r. repeat split. constructor.
  - intros s1 s2 s3 (W1 & r1 & e1 & D1 & T1 & L1 & F1)
                    (W2 & r2 & e2 & D2 & T2 & L2 & F2).
    split; [congruence|]. exists (r1 ++ r2), (e1 ++ e2).
    rewrite D2, D1, T2, T1, <- !app_assoc.
    split; [reflexivity|]. split; [reflexivity|]. split.
    + unfold logged_rows in *. now rewrite omap_app, L1, L2.
    + apply Forall_app. split; [exact F1|]. now rewrite <- W1.
Qed.







(** ** Any invariant of the machine, over a run of the browser engine *)

Section OverASite.

Context {page : Type} (site : Dexel.Site page).

Variable R : State -> State -> Prop.
Context `{!PreOrder R}.
Hypothesis R_browser : forall e st, browser_event e -> R st (emit e st).
Hypothesis R_add : forall b p sz se c, keeps R (add_to_database b p sz se c).

Lemma happen_any e :
  browser_event e -> keeps (of_machine R) (@Dexel.happen page e).
Proof. intros H s. unfold of_machine. simpl. now apply R_browser. Qed.

Ltac then_ lemma := apply keeps_bind; [exact _ | lemma | intros ?].

Lemma perform_any c a : keeps (of_machine R) (Dexel.perform site c a).
Proof.
  unfold Dexel.perform.
  then_ ltac:(apply showing_keeps; exact _).
  then_ ltac:(apply happen_any; exact I).
  destruct (Dexel.act site _ a);
    [apply on_contexts_keeps; exact _ | apply keeps_raise; exact _].
Qed.

Lemma page_content_any c : keeps (of_machine R) (Dexel.page_content site c).
Proof.
  unfold Dexel.page_content.
  then_ ltac:(apply showing_keeps; exact _).
  then_ ltac:(apply happen_any; exact I).
  apply keeps_ret; exact _.
Qed.

Lemma parse_html_any soup :
  keeps (of_machine R) (Dexel.parse_html (page:=page) soup).
Proof.
  unfold Dexel.parse_html. apply keeps_for_each; [exact _ | intros card].
  then_ ltac:(apply keeps_lift_reading; exact _).
  apply lift_machine_keeps, R_add.
Qed.

Lemma paginate_any fuel c inputs :
  keeps (of_machine R) (Dexel.paginate site fuel c inputs).
Proof.
  induction fuel as [|fuel IH]; simpl; [apply keeps_out_of_fuel; exact _|].
  then_ ltac:(apply page_content_any).
  then_ ltac:(apply parse_html_any).
  then_ ltac:(apply showing_keeps; exact _).
  destruct (Dexel.next_action (Dexel.footer site _)).
  - apply happen_any. exact I.
  - then_ ltac:(apply perform_any). exact IH.
  - apply keeps_ret; exact _.
  - apply keeps_raise; exact _.
Qed.

Lemma new_context_any : keeps (of_machine R) (@Dexel.new_context page).
Proof.
  unfold Dexel.new_context.
  then_ ltac:(apply keeps_get; exact _).
  then_ ltac:(apply keeps_modify; intros s; unfold of_machine; simpl;
              reflexivity).
  then_ ltac:(apply happen_any; exact I).
  apply keeps_ret; exact _.
Qed.

Lemma new_page_any c : keeps (of_machine R) (Dexel.new_page site c).
Proof.
  unfold Dexel.new_page.
  then_ ltac:(apply on_contexts_keeps; exact _).
  apply happen_any. exact I.
Qed.

Lemma close_context_any c : keeps (of_machine R) (@Dexel.close_context page c).
Proof.
  unfold Dexel.close_context.
  then_ ltac:(apply on_contexts_keeps; exact _).
  apply happen_any. exact I.
Qed.

Lemma nav_to_branch_page_any c input :
  keeps (of_machine R) (Dexel.nav_to_branch_page site c input).
Proof.
  intros s. rewrite nav_to_branch_page_steps. revert s.
  then_ ltac:(apply keeps_for_each; [exact _ | intros a; apply perform_any]).
  apply keeps_ret; exact _.
Qed.

Lemma scrape_pair_any fuel branch input :
  keeps (of_machine R) (Dexel.scrape_pair site fuel branch input).
Proof.
  unfold Dexel.scrape_pair, Dexel.scrape_branch.
  then_ ltac:(apply happen_any; exact I).
  then_ ltac:(apply new_context_any).
  then_ ltac:(apply new_page_any).
  then_ ltac:(apply nav_to_branch_page_any).
  then_ ltac:(idtac).
  - then_ ltac:(apply perform_any). then_ ltac:(apply perform_any).
    apply paginate_any.
  - apply close_context_any.
Qed.

Lemma dexel_scrape_any fuel inputs :
  keeps (of_machine R) (Dexel.scrape site fuel inputs).
Proof.
  unfold Dexel.scrape.
  then_ ltac:(apply happen_any; exact I).
  then_ ltac:(apply new_context_any).
  then_ ltac:(apply new_page_any).
  then_ ltac:(destruct inputs;
              [apply keeps_raise; exact _ | apply keeps_ret; exact _]).
  then_ ltac:(apply nav_to_branch_page_any).
  then_ ltac:(apply showing_keeps; exact _).
  then_ ltac:(apply close_context_any).
  then_ ltac:(apply keeps_for_each; [exact _ | intros branch]).
  - then_ ltac:(apply happen_any; exact I).
    apply keeps_for_each; [exact _ | intros input].
    apply scrape_pair_any.
  - then_ ltac:(apply happen_any; exact I). apply happen_any. exact I.
Qed.

End OverASite.



#[export] Instance fetcher_idle_preorder : PreOrder fetcher_idle.
Proof.
  split.
  - intros st. repeat split. reflexivity.
  - intros s1 s2 s3 (L1 & S1 & E1) (L2 & S2 & E2).
    split; [congruence|]. split; [congruence|]. etransitivity; eassumption.
Qed.

(** X9.  The site A scraper inherits [fetch_html] and [fetch_html_timed]
    and never calls them: in any run, however it ends, no HTTP request
    is sent through [requests], [time.sleep] is never called (all its
    waiting is [page.wait_for_timeout]), and [last_request_time] stays
    what [__init__] made it. *)
Theorem site_a_never_uses_the_fetcher :
  forall page (site : Dexel.Site page) fuel inputs,
    keeps (of_machine fetcher_idle) (Dexel.scrape site fuel inputs).
Proof.
  intros page site fuel inputs. apply dexel_scrape_any.
  - exact _.
  - intros e st H. split; [reflexivity|]. split; [reflexivity|].
    exists [e]. split; [reflexivity|]. constructor; [|constructor].
    destruct e as [[]| | | | | | | | | |]; simpl in *; tauto.
  - intros b p sz se c st. rewrite add_to_database_run.
    split; [reflexivity|]. split; [reflexivity|].
    eexists [_]. split; [reflexivity|]. constructor; [|constructor].
    simpl. tauto.
Qed.

End AccountFacts.

(* ================================================================== *)
(** * More on the site A engine *)
(* ================================================================== *)

Module SessionMore.

Import Base Relations Steps Dexel Paging PagingFacts Browsing StoreFacts.

Lemma for_each_app {S A} (xs ys : list A) (body : A -> M S unit) s :
  for_each (xs ++ ys) body s =
  bind (for_each xs body) (fun _ => for_each ys body) s.
Proof.
  revert s. induction xs as [|x xs IH]; intros s; simpl.
  - reflexivity.
  - rewrite bind_assoc. apply bind_ext. intros _ s1. apply IH.
Qed.

Lemma observations_app l1 l2 :
  observations (l1 ++ l2) = observations l1 ++ observations l2.
Proof. unfold observations. apply flat_map_app. Qed.

Section OverASite.

Context {page : Type}.
Variable site : Site page.

(** X10.  [parse_html] stops at the first card it cannot read and lets
    the exception out: the cards before it are logged and stored, in
    order, and stay stored; the card itself and the cards after it
    leave nothing, neither a log line nor a row. *)
Theorem parse_html_stops_at_the_first_unreadable_card
    soup good bad rest e (s : Session page) :
  dexel_products soup = good ++ bad :: rest ->
  Forall (fun card => exists o, run_reading (read_card card) = Ok o) good ->
  run_reading (read_card bad) = Raise e ->
  exists s',
    parse_html soup s = (Raise e, s') /\
    contexts s' = contexts s /\
    db (machine s') =
      db (machine s) ++ (row_of (website (machine s)) <$> observations good) /\
    trace (machine s') =
      trace (machine s) ++
      (line_of (website (machine s)) <$> observations good) /\
    length (observations good) = length good.
Proof.
  intros Hs Hg Hb.
  destruct (parse_html_run (Fixtures.results good) s Hg)
    as (s' & E & Hc & _ & _ & D & T).
  exists s'. unfold parse_html in *. rewrite Hs, for_each_app.
  cbn [Fixtures.results dexel_products] in E, D, T.
  rewrite (bind_ok _ _ _ _ _ E). cbn [for_each].
  split; [|split; [exact Hc|split; [exact D|split; [exact T|]]]].
  - unfold bind at 1, lift_reading at 1. now rewrite Hb.
  - clear -Hg. induction Hg as [|card cards [o Ho] _ IH]; [reflexivity|].
    rewrite (observations_cons _ _ _ Ho). simpl. now rewrite IH.
Qed.

(** X11.  The loop of [scrape_branch] has no bound of its own.  On a
    site where every page of some set has readable cards and a footer
    that leads on to a page of the set, the loop is still running after
    any number of turns: after [fuel] turns it has read the tab [fuel]
    times and clicked [fuel] times, and it has neither returned nor
    raised. *)
Theorem pagination_has_no_bound (inside_set : page -> Prop) c inputs :
  (forall p, inside_set p ->
     readable (content site p) /\
     exists q, leads_to site p q /\ inside_set q) ->
  forall fuel p (s : Session page),
    inside_set p -> contexts s !! c = Some p ->
    exists s' evs,
      paginate site fuel c inputs s = (OutOfFuel, s') /\
      trace (machine s') = trace (machine s) ++ evs /\
      reads c evs = fuel /\ clicks c evs = fuel.
Proof.
  intros Closed. induction fuel as [|fuel IH]; intros p s Hp Hc.
  - exists s, []. rewrite app_nil_r. now repeat split.
  - destruct (Closed p Hp) as (Hr & q & L & Hq).
    destruct (turn_run site c inputs p s Hc Hr) as (s1 & Hc1 & Hg & E).
    destruct (leads_to_follows _ _ _ L) as (l & N & A).
    rewrite E, N.
    assert (Hs : contexts s1 !! c = Some p) by now rewrite Hc1.
    rewrite (bind_ok _ _ _ _ _ (perform_run _ _ _ _ _ _ Hs A)).
    set (s2 := on_contexts _ _).
    assert (Hc2 : contexts s2 !! c = Some q) by apply lookup_insert_eq.
    destruct (IH q s2 Hq Hc2) as (s' & evs & Er & T & Rd & Cl).
    destruct Hg as (_ & _ & _ & T1).
    exists s'. eexists. split; [exact Er|]. split.
    + rewrite T. unfold s2. simpl. rewrite T1, <- !app_assoc. reflexivity.
    + change (ReadContent c :: ?l) with ([ReadContent c] ++ l).
      rewrite !reads_app, !clicks_app, reads_lines, clicks_lines, Rd, Cl.
      unfold reads, clicks. simpl. rewrite Nat.eqb_refl. simpl. split; lia.
Qed.


(** ** The context of a pair, however the pair ends *)

#[export] Instance tab_kept_preorder c : PreOrder (@tab_kept page c).
Proof.
  split.
  - intros s. split; auto.
  - intros s1 s2 s3 [O1 K1] [O2 K2]. split.
    + intros c' H. now rewrite (O2 c' H), (O1 c' H).
    + auto.
Qed.

Lemma on_machine_tab_kept c f :
  keeps (tab_kept c) (modify (@on_machine page f)).
Proof. intros s. split; auto. Qed.

Lemma happen_tab_kept c e : keeps (tab_kept c) (@happen page e).
Proof. apply on_machine_tab_kept. Qed.

Lemma showing_tab_kept c c' : keeps (tab_kept c) (@showing page c').
Proof.
  intros s. unfold showing, bind, get.
  destruct (contexts s !! c'); reflexivity.
Qed.

Lemma lift_machine_tab_kept {A} c (m : M State A) :
  keeps (tab_kept c) (@lift_machine page A m).
Proof.
  intros s. unfold lift_machine. destruct (m (machine s)). split; auto.
Qed.

Ltac then_ lemma := apply keeps_bind; [exact _ | lemma | intros ?].

Lemma perform_tab_kept c a : keeps (tab_kept c) (perform site c a).
Proof.
  unfold perform.
  then_ ltac:(apply showing_tab_kept).
  then_ ltac:(apply happen_tab_kept).
  destruct (act site _ a) as [q|]; [|apply keeps_raise; exact _].
  intros s. split; simpl.
  - intros c' H. now apply lookup_insert_ne.
  - intros _. exists q. apply lookup_insert_eq.
Qed.

Lemma paginate_tab_kept c fuel inputs :
  keeps (tab_kept c) (paginate site fuel c inputs).
Proof.
  induction fuel as [|fuel IH]; simpl; [apply keeps_out_of_fuel; exact _|].
  then_ ltac:(unfold page_content).
  { then_ ltac:(apply showing_tab_kept).
    then_ ltac:(apply happen_tab_kept). apply keeps_ret; exact _. }
  then_ ltac:(unfold parse_html).
  { apply keeps_for_each; [exact _ | intros card].
    then_ ltac:(apply keeps_lift_reading; exact _).
    apply lift_machine_tab_kept. }
  then_ ltac:(apply showing_tab_kept).
  destruct (next_action (footer site _)).
  - apply happen_tab_kept.
  - then_ ltac:(apply perform_tab_kept). exact IH.
  - apply keeps_ret; exact _.
  - apply keeps_raise; exact _.
Qed.

Lemma pair_body_tab_kept c fuel branch input :
  keeps (tab_kept c)
    (for_each (nav_actions input) (perform site c) ;;
     scrape_branch site fuel c branch input).
Proof.
  then_ ltac:(apply keeps_for_each;
              [exact _ | intros a; apply perform_tab_kept]).
  unfold scrape_branch.
  then_ ltac:(apply perform_tab_kept).
  then_ ltac:(apply perform_tab_kept).
  apply paginate_tab_kept.
Qed.

(** X13.  The context of a pair is closed exactly when the pair
    returns.  When [scrape_pair] returns, its context is gone from the
    store and every other context is as it was; when it raises (or is
    still paging), [context.close()] was not reached: the context is
    still open, on whatever tab the pair had reached.  Either way no
    other context is touched. *)
Theorem pair_context_is_closed_on_return_only
    fuel branch input (s : Session page) :
  match scrape_pair site fuel branch input s with
  | (Ok _, s') => contexts s' = delete (next_context s) (contexts s)
  | (_, s') =>
      exists tab, contexts s' = <[next_context s := tab]> (contexts s)
  end.
Proof.
  set (c := next_context s).
  set (s1 := on_machine (emit (Logged (ScrapingNewInput input))) s).
  set (s2 := on_machine (emit (NewContext c)) (bump_context s1)).
  set (s3 := on_machine (emit (NewPage c))
               (on_contexts (insert c (blank site)) s2)).
  set (body := (for_each (nav_actions input) (perform site c) ;;
                scrape_branch site fuel c branch input)).
  assert (E : scrape_pair site fuel branch input s =
              (body ;; close_context c) s3).
  { unfold scrape_pair, body.
    rewrite (bind_ok _ _ _ _ s1 (eq_refl : happen _ s = (Ok tt, s1))).
    rewrite (bind_ok _ _ _ _ s2 (eq_refl : new_context s1 = (Ok c, s2))).
    rewrite (bind_ok _ _ _ _ s3
               (eq_refl : new_page site c s2 = (Ok tt, s3))).
    pose proof (nav_to_branch_page_steps site c input s3) as Enav.
    unfold bind in Enav |- *. rewrite Enav.
    now destruct (for_each (nav_actions input) (perform site c) s3)
      as [[[]| |] s4]. }
  rewrite E. unfold bind at 1.
  pose proof (pair_body_tab_kept c fuel branch input s3) as [Others Kept].
  fold body in Others, Kept.
  assert (Same : forall c', c' <> c ->
                   contexts (snd (body s3)) !! c' = contexts s !! c').
  { intros c' H. rewrite (Others c' H). simpl. now apply lookup_insert_ne. }
  assert (Open : is_Some (contexts (snd (body s3)) !! c)).
  { apply Kept. exists (blank site). apply lookup_insert_eq. }
  destruct (body s3) as [[[]|e|] s4]; simpl in Same, Open |- *.
  - apply map_eq. intros c'. destruct (decide (c' = c)) as [->|H].
    + now rewrite !lookup_delete_eq.
    + rewrite !lookup_delete_ne by auto. now apply Same.
  - destruct Open as [tab Ht]. exists tab. apply map_eq. intros c'.
    destruct (decide (c' = c)) as [->|H].
    + now rewrite lookup_insert_eq.
    + rewrite lookup_insert_ne by auto. now apply Same.
  - destruct Open as [tab Ht]. exists tab. apply map_eq. intros c'.
    destruct (decide (c' = c)) as [->|H].
    + now rewrite lookup_insert_eq.
    + rewrite lookup_insert_ne by auto. now apply Same.
Qed.

End OverASite.

(** X10 on a page with the cards [pilot_sport], [no_price] and
    [mislabelled]: the loop raises [AttributeError] at the second card,
    the first is stored, the third is not looked at. *)
Lemma unreadable_card_witness :
  exists s',
    parse_html (Fixtures.results [Fixtures.pilot_sport;
                                  MoreFixtures.no_price;
                                  Fixtures.mislabelled])
      (start (page:=nat) 0) = (Raise AttributeError, s') /\
    db (machine s') =
      [ {| website_name := "Dexel"; tyre_brand := "Michelin";
           tyre_pattern := "Pilot sport 4"; tyre_size := "205/55 R16";
           seasonality := "summer"; price := "120.00" |} ].
Proof.
  destruct (parse_html_stops_at_the_first_unreadable_card
              (Fixtures.results [Fixtures.pilot_sport; MoreFixtures.no_price;
                                 Fixtures.mislabelled])
              [Fixtures.pilot_sport] MoreFixtures.no_price
              [Fixtures.mislabelled] AttributeError (start (page:=nat) 0)
              eq_refl)
    as (s' & E & _ & D & _).
  - constructor; [|constructor]. eexists. reflexivity.
  - reflexivity.
  - exists s'. split; [exact E | exact D].
Defined.

(** X11 on the site [carousel], whose result page leads back to
    itself: after five turns the loop is still running. *)
Lemma no_bound_witness :
  exists s' evs,
    paginate MoreFixtures.carousel 5 0 (205, 55, 16)%Z
      MoreFixtures.on_tab_one = (OutOfFuel, s') /\
    trace (machine s') = [] ++ evs /\
    reads 0 evs = 5%nat /\ clicks 0 evs = 5%nat.
Proof.
  refine (pagination_has_no_bound MoreFixtures.carousel (fun p => p = 1%nat)
            0%nat (205, 55, 16)%Z _ 5%nat 1%nat MoreFixtures.on_tab_one
            eq_refl (lookup_insert_eq _ _ _)).
  intros p ->. split.
  - constructor; [|constructor]. eexists. reflexivity.
  - exists 1%nat. split; [|reflexivity].
    exists "Last >>". split; [reflexivity|]. left. now split.
Defined.

End SessionMore.

(* ================================================================== *)
(** * More on the site B engine *)
(* ================================================================== *)

Module NationalMore.

Import Base Relations Steps FetchFacts StoreFacts NationalFacts CardFacts
  Searches.

(** ** A branch link without [href] *)

Lemma branch_sites_missing_href links st :
  None ∈ links -> map_m National.branch_site links st = (Raise KeyError, st).
Proof.
  induction links as [|[href|] links IH]; intros H.
  - now apply elem_of_nil in H.
  - apply elem_of_cons in H as [H|H]; [discriminate|].
    simpl. unfold bind at 1. simpl. unfold bind at 1. now rewrite (IH H).
  - reflexivity.
Qed.

(** X14.  The URLs of the branch pages are all built before the first of
    them is fetched.  When the branch directory is answered and one of
    its branch links, wherever it stands, has no [href], the run raises
    [KeyError] after exactly one request: no branch page is asked for,
    nothing is dumped, nothing is stored. *)
Theorem link_without_href_stops_the_run web inputs st latency status dir :
  serve web (served st) "https://www.national.co.uk/branches"
    = Response latency status dir ->
  status_raises web status = false ->
  None ∈ branch_links dir ->
  exists st',
    National.scrape web inputs st = (Raise KeyError, st') /\
    served st' = S (served st) /\
    db st' = db st /\
    trace st' =
      trace st ++
      [Logged StartingPostcodes;
       Requested "https://www.national.co.uk/branches" (Some status)
         (clock st + latency)%Q].
Proof.
  intros Hd Hs Hn.
  unfold National.scrape, National.find_branch_postcodes.
  unfold bind at 1. unfold bind at 1. cbn [log_info modify].
  unfold bind at 1.
  set (st0 := emit (Logged StartingPostcodes) st).
  change (served st) with (served st0) in Hd.
  rewrite (fetch_html_response _ _ _ _ _ _ Hd), Hs.
  unfold bind at 1. rewrite (branch_sites_missing_href _ _ Hn).
  eexists. split; [reflexivity|]. simpl. rewrite <- app_assoc.
  now repeat split.
Qed.

(** X14 on the server [broken_directory], whose directory lists a
    branch with a link and one without. *)
Lemma missing_href_witness :
  exists st',
    National.scrape MoreFixtures.broken_directory [(205, 55, 16)%Z]
      (init National.name 5) = (Raise KeyError, st') /\
    served st' = 1%nat /\
    db st' = [] /\
    trace st' =
      [] ++
      [Logged StartingPostcodes;
       Requested "https://www.national.co.uk/branches" (Some 200%Z)
         (5 + 0)%Q].
Proof.
  apply (link_without_href_stops_the_run MoreFixtures.broken_directory
           [(205, 55, 16)%Z] (init National.name 5) 0 200%Z _ eq_refl eq_refl).
  apply elem_of_cons. right. apply elem_of_cons. now left.
Defined.

(** ** What a run can raise *)












(** ** The search pages of a run that goes well *)

Lemma answered_app web urls1 : forall n urls2 pages,
  answered web n (urls1 ++ urls2) pages ->
  exists pages1 pages2,
    pages = pages1 ++ pages2 /\
    answered web n urls1 pages1 /\
    answered web (n + length urls1) urls2 pages2.
Proof.
  induction urls1 as [|url urls1 IH]; intros n urls2 pages H.
  - exists [], pages. split; [reflexivity|]. split; [constructor|].
    now rewrite Nat.add_0_r.
  - simpl in H. remember (url :: urls1 ++ urls2) as l eqn:El.
    destruct H as [|n u us lat status soup soups Hs Hr H]; [discriminate|].
    injection El as -> ->.
    destruct (IH _ _ _ H) as (p1 & p2 & -> & H1 & H2).
    exists (soup :: p1), p2. split; [reflexivity|]. split.
    + econstructor; eassumption.
    + simpl. now rewrite <- Nat.add_succ_comm.
Qed.

Lemma answered_cons_inv web n url urls pages :
  answered web n (url :: urls) pages ->
  exists latency status soup soups,
    pages = soup :: soups /\
    serve web n url = Response latency status soup /\
    status_raises web status = false /\
    answered web (S n) urls soups.
Proof. inversion 1; subst. eauto 10. Qed.

Lemma answered_length web n urls pages :
  answered web n urls pages -> length pages = length urls.
Proof. induction 1; simpl; congruence. Qed.

Lemma national_observations_cons card cards o :
  run_reading (National.read_card card) = Ok o ->
  observations (card :: cards) = o :: observations cards.
Proof. intros H. unfold observations. simpl. now rewrite H. Qed.

(** The innermost loop: a log line and a row per card. *)
Lemma cards_run cards : forall st,
  Forall (fun card => exists o, run_reading (National.read_card card) = Ok o)
         cards ->
  exists st',
    for_each cards (fun individual_tyre =>
      o <- lift_reading (National.read_card individual_tyre) ;;
      National.record o) st = (Ok tt, st') /\
    db st' = db st ++ (Paging.row_of (website st) <$> observations cards) /\
    served st' = served st /\ website st' = website st.
Proof.
  induction cards as [|card cards IH]; intros st H.
  - exists st. rewrite app_nil_r. now repeat split.
  - apply Forall_cons in H as [[o Ho] H].
    rewrite (national_observations_cons _ _ _ Ho). simpl for_each.
    set (st1 := append_row (Paging.row_of (website st) o)
                  (emit (Paging.line_of (website st) o) st)).
    assert (E : (o <- lift_reading (National.read_card card);;
                 National.record o) st = (Ok tt, st1)).
    { unfold bind, lift_reading. rewrite Ho. reflexivity. }
    rewrite (bind_ok _ _ _ _ _ E).
    destruct (IH st1 H) as (st' & Es & D & Sv & W).
    exists st'. split; [exact Es|]. rewrite D, Sv, W. simpl.
    rewrite <- app_assoc. now repeat split.
Qed.

(** The loop over the inputs, for one postcode. *)
Lemma inputs_run web postcode inputs : forall st pages,
  answered web (served st)
    ((fun input => National.search_url input postcode) <$> inputs) pages ->
  Forall readable pages ->
  exists st',
    for_each inputs (fun input =>
      log_info (ScrapingInputs input) ;;
      tyre_soup <- fetch_html web (National.search_url input postcode) ;;
      for_each (national_tyres tyre_soup) (fun individual_tyre =>
        o <- lift_reading (National.read_card individual_tyre) ;;
        National.record o)) st = (Ok tt, st') /\
    db st' = db st ++ rows (website st) pages /\
    served st' = (served st + length inputs)%nat /\
    website st' = website st.
Proof.
  induction inputs as [|input inputs IH]; intros st pages Ha Hr.
  - inversion Ha; subst. exists st.
    rewrite app_nil_r, Nat.add_0_r. now repeat split.
  - apply answered_cons_inv in Ha
      as (lat & status & soup & soups & -> & Hs & Hst & Ha).
    apply Forall_cons in Hr as [Hr Hrs].
    cbn [for_each].
    set (st0 := emit (Logged (ScrapingInputs input)) st).
    change (served st) with (served st0) in Hs.
    pose proof (fetch_html_response _ _ _ _ _ _ Hs) as Ef. rewrite Hst in Ef.
    set (st1 := stamp _ _) in Ef.
    destruct (cards_run (national_tyres soup) st1 Hr) as (st2 & Ec & D & Sv & W).
    assert (E : (log_info (ScrapingInputs input) ;;
                 tyre_soup <- fetch_html web
                                (National.search_url input postcode) ;;
                 for_each (national_tyres tyre_soup)
                   (fun individual_tyre =>
                      o <- lift_reading (National.read_card individual_tyre) ;;
                      National.record o)) st = (Ok tt, st2)).
    { unfold bind at 1, log_info, modify. fold st0.
      now rewrite (bind_ok _ _ _ _ _ Ef). }
    rewrite (bind_ok _ _ _ _ _ E).
    destruct (IH st2 soups) as (st' & Es & D' & Sv' & W'); [|exact Hrs|].
    { now rewrite Sv. }
    exists st'. split; [exact Es|].
    rewrite D', Sv', W', D, Sv, W. unfold rows. simpl.
    rewrite <- app_assoc. repeat split. lia.
Qed.

Lemma rows_app website pages1 pages2 :
  rows website (pages1 ++ pages2) = rows website pages1 ++ rows website pages2.
Proof. unfold rows. apply flat_map_app. Qed.

Lemma extract_data_run web inputs postcodes : forall st pages,
  answered web (served st) (urls inputs postcodes) pages ->
  Forall readable pages ->
  exists st',
    National.extract_data web inputs postcodes st = (Ok tt, st') /\
    db st' = db st ++ rows (website st) pages /\
    served st' = (served st + length postcodes * length inputs)%nat /\
    website st' = website st.
Proof.
  unfold National.extract_data.
  induction postcodes as [|postcode postcodes IH]; intros st pages Ha Hr.
  - inversion Ha; subst. exists st.
    rewrite app_nil_r, Nat.add_0_r. now repeat split.
  - unfold urls in Ha. cbn [flat_map] in Ha.
    apply answered_app in Ha as (p1 & p2 & -> & H1 & H2).
    apply Forall_app in Hr as [Hr1 Hr2].
    cbn [for_each].
    set (st0 := emit (Logged (ScrapingPostcode postcode)) st).
    destruct (inputs_run web postcode inputs st0 p1 H1 Hr1)
      as (st1 & E1 & D1 & S1 & W1).
    rewrite length_fmap in H2.
    assert (E : (log_info (ScrapingPostcode postcode) ;;
                 for_each inputs (fun input =>
                   log_info (ScrapingInputs input) ;;
                   tyre_soup <- fetch_html web
                                  (National.search_url input postcode) ;;
                   for_each (national_tyres tyre_soup)
                     (fun individual_tyre =>
                        o <- lift_reading
                               (National.read_card individual_tyre) ;;
                        National.record o))) st = (Ok tt, st1)).
    { unfold bind at 1, log_info, modify. fold st0. exact E1. }
    rewrite (bind_ok _ _ _ _ _ E).
    destruct (IH st1 p2) as (st' & Es & D' & S' & W'); [|exact Hr2|].
    { rewrite S1. exact H2. }
    exists st'. split; [exact Es|].
    rewrite D', S', W', D1, S1, W1, rows_app. simpl.
    rewrite <- app_assoc. repeat split. lia.
Qed.

(** X16.  [extract_data] asks for one search page per postcode and
    input, postcode by postcode and, for each, input by input.  When
    those requests are all answered with pages whose cards can all be
    read, it returns, having sent exactly that many requests and stored
    the cards of every page, page after page and in the order of each
    page: nothing is left out and nothing is merged, so a tyre shown for
    two postcodes is stored twice. *)
Theorem extract_data_stores_every_page web inputs postcodes st pages :
  answered web (served st) (urls inputs postcodes) pages ->
  Forall readable pages ->
  exists st',
    National.extract_data web inputs postcodes st = (Ok tt, st') /\
    db st' = db st ++ rows (website st) pages /\
    served st' = (served st + length postcodes * length inputs)%nat /\
    length pages = (length postcodes * length inputs)%nat.
Proof.
  intros Ha Hr.
  destruct (extract_data_run web inputs postcodes st pages Ha Hr)
    as (st' & E & D & Sv & _).
  exists st'. split; [exact E|]. split; [exact D|]. split; [exact Sv|].
  rewrite (answered_length _ _ _ _ Ha). unfold urls.
  clear. induction postcodes as [|pc pcs IH]; [reflexivity|].
  cbn [flat_map]. rewrite length_app, length_fmap, IH. reflexivity.
Qed.

(** X16 on the server [two_searches], two inputs and one postcode:
    three rows, the card [ecocontact] twice. *)
Lemma extract_data_witness :
  exists st',
    National.extract_data MoreFixtures.two_searches
      [(205, 55, 16)%Z; (225, 50, 16)%Z] ["LS14AP"]
      (init National.name 5) = (Ok tt, st') /\
    db st' =
      [ {| website_name := "National"; tyre_brand := "CONTINENTAL";
           tyre_pattern := "EcoContact 6"; tyre_size := "205/55 R16 91V";
           seasonality := "summer"; price := "89.99" |};
        {| website_name := "National"; tyre_brand := "Pirelli";
           tyre_pattern := "Cinturato P7"; tyre_size := "225/50 R16 92W";
           seasonality := "summer"; price := "101.50" |};
        {| website_name := "National"; tyre_brand := "CONTINENTAL";
           tyre_pattern := "EcoContact 6"; tyre_size := "205/55 R16 91V";
           seasonality := "summer"; price := "89.99" |} ] /\
    served st' = 2%nat.
Proof.
  destruct (extract_data_stores_every_page MoreFixtures.two_searches
              [(205, 55, 16)%Z; (225, 50, 16)%Z] ["LS14AP"]
              (init National.name 5)
              [MoreFixtures.search_page [Fixtures.ecocontact];
               MoreFixtures.search_page
                 [Fixtures.national_card "Pirelli" "Cinturato P7"
                    "225/50 R16 92W" "Summer" "101.50";
                  Fixtures.ecocontact]])
    as (st' & E & D & Sv & _).
  - eapply answered_cons; [reflexivity | reflexivity |].
    eapply answered_cons; [reflexivity | reflexivity |].
    apply answered_nil.
  - repeat constructor; eexists; reflexivity.
  - exists st'. split; [exact E|]. split; [exact D | exact Sv].
Defined.

End NationalMore.

(* ================================================================== *)
(** * Site B: a run that goes well *)
(* ================================================================== *)

Module NationalRuns.

Import Base Relations Steps FetchFacts StoreFacts NationalFacts Searches
  NationalMore.

Lemma branch_sites_run hrefs st :
  map_m National.branch_site (Some <$> hrefs) st =
    (Ok (National.branch_url <$> hrefs), st).
Proof.
  induction hrefs as [|href hrefs IH]; [reflexivity|].
  cbn [fmap list_fmap map_m]. unfold bind at 1. cbn [National.branch_site ret].
  unfold bind at 1.
  change (list_fmap _ _ Some hrefs) with (Some <$> hrefs).
  now rewrite IH.
Qed.

(** One branch page that is answered with a postal-code span. *)
Lemma read_postcode_run web url text st :
  page_text web (served st) url text ->
  exists st',
    National.read_postcode web url st
      = (Ok (National.clean_postcode text), st') /\
    served st' = S (served st) /\ db st' = db st /\
    website st' = website st /\
    exists status t, trace st' = trace st ++ [Requested url status t].
Proof.
  intros (lat & status & body & Hs & Hst & Hp).
  unfold National.read_postcode.
  pose proof (fetch_html_response _ _ _ _ _ _ Hs) as E. rewrite Hst in E.
  rewrite (bind_ok _ _ _ _ _ E). unfold bind, not_none. rewrite Hp.
  eexists. split; [reflexivity|]. simpl. repeat split. eauto.
Qed.

Lemma read_postcodes_run web urls texts : forall n st,
  page_texts web n urls texts -> n = served st ->
  exists st' evs,
    map_m (National.read_postcode web) urls st
      = (Ok (National.clean_postcode <$> texts), st') /\
    served st' = (served st + length urls)%nat /\ db st' = db st /\
    website st' = website st /\
    trace st' = trace st ++ evs /\
    Forall (fun e => exists u s t, e = Requested u s t) evs /\
    length evs = length urls.
Proof.
  intros n st H. revert st.
  induction H as [n|n url urls text texts Ht Hts IH]; intros st ->.
  - exists st, []. rewrite app_nil_r, Nat.add_0_r. now repeat split.
  - destruct (read_postcode_run _ _ _ _ Ht)
      as (st1 & E1 & S1 & D1 & W1 & status & t & T1).
    destruct (IH st1) as (st' & evs & E & S' & D' & W' & T' & F & L);
      [now rewrite S1|].
    exists st', (Requested url status t :: evs).
    cbn [map_m]. rewrite (bind_ok _ _ _ _ _ E1), (bind_ok _ _ _ _ _ E).
    split; [reflexivity|]. rewrite S', S1, D', D1, W', W1, T', T1, <- app_assoc.
    simpl. repeat split; [lia | | now rewrite L].
    constructor; [eauto | exact F].
Qed.

Lemma distinct_length l : (length (National.distinct l) <= length l)%nat.
Proof.
  apply submseteq_length, NoDup_submseteq; [apply distinct_NoDup|].
  intros x. now rewrite elem_of_distinct.
Qed.

(** [find_branch_postcodes] on a server that plays along. *)
Lemma find_branch_postcodes_run web st latency status dir hrefs texts :
  serve web (served st) "https://www.national.co.uk/branches"
    = Response latency status dir ->
  status_raises web status = false ->
  branch_links dir = Some <$> hrefs ->
  page_texts web (S (served st)) (National.branch_url <$> hrefs) texts ->
  exists st' requests,
    National.find_branch_postcodes web st =
      (Ok (National.distinct (National.clean_postcode <$> texts)), st') /\
    served st' = (S (served st) + length hrefs)%nat /\
    db st' = db st /\ website st' = website st /\
    trace st' =
      trace st ++
      [Logged StartingPostcodes;
       Requested "https://www.national.co.uk/branches" (Some status)
         (clock st + latency)%Q] ++
      requests ++ [Logged (PostcodesExtracted (length hrefs))] /\
    Forall (fun e => exists u s t, e = Requested u s t) requests /\
    length requests = length hrefs /\
    (length (National.distinct (National.clean_postcode <$> texts))
       <= length hrefs)%nat.
Proof.
  intros Hd Hs Hl Ht.
  unfold National.find_branch_postcodes.
  set (st0 := emit (Logged StartingPostcodes) st).
  rewrite (bind_ok _ _ _ _ st0 (eq_refl : log_info _ st = (Ok tt, st0))).
  change (served st) with (served st0) in Hd.
  pose proof (fetch_html_response _ _ _ _ _ _ Hd) as Ef. rewrite Hs in Ef.
  set (st1 := stamp _ _) in Ef.
  rewrite (bind_ok _ _ _ _ _ Ef), Hl.
  rewrite (bind_ok _ _ _ _ _ (branch_sites_run hrefs st1)).
  destruct (read_postcodes_run web _ _ _ st1 Ht eq_refl)
    as (st2 & evs & E & Sv & D & W & T & F & L).
  rewrite (bind_ok _ _ _ _ _ E).
  rewrite length_fmap in Sv, L.
  assert (Lt : length (National.clean_postcode <$> texts) = length hrefs).
  { rewrite length_fmap.
    clear -Ht. remember (National.branch_url <$> hrefs) as urls eqn:Eu.
    revert hrefs Eu. induction Ht as [|n url urls text texts _ _ IH];
      intros [|h hrefs] Eu; try discriminate; [reflexivity|].
    injection Eu as _ Eu. simpl. now rewrite (IH _ Eu). }
  eexists _, evs. split; [reflexivity|]. simpl.
  rewrite Sv, D, W, T, Lt. simpl. rewrite <- !app_assoc. simpl.
  repeat split; try assumption.
  rewrite <- Lt. apply distinct_length.
Qed.

(** X17.  Discovery succeeds whenever the server plays along: when the
    directory is answered, every branch link has an [href] and every
    branch page is answered with a postal-code span,
    [find_branch_postcodes] returns the distinct cleaned texts, having
    sent one request for the directory and one per branch link, in
    order, and stored nothing.  The number it logs as extracted is the
    number of branch pages, counted before the duplicates are dropped:
    the list it returns can be shorter. *)
Theorem discovery_succeeds web st latency status dir hrefs texts :
  serve web (served st) "https://www.national.co.uk/branches"
    = Response latency status dir ->
  status_raises web status = false ->
  branch_links dir = Some <$> hrefs ->
  page_texts web (S (served st)) (National.branch_url <$> hrefs) texts ->
  exists st' requests,
    National.find_branch_postcodes web st =
      (Ok (National.distinct (National.clean_postcode <$> texts)), st') /\
    served st' = (S (served st) + length hrefs)%nat /\
    db st' = db st /\
    trace st' =
      trace st ++
      [Logged StartingPostcodes;
       Requested "https://www.national.co.uk/branches" (Some status)
         (clock st + latency)%Q] ++
      requests ++ [Logged (PostcodesExtracted (length hrefs))] /\
    Forall (fun e => exists u s t, e = Requested u s t) requests /\
    length requests = length hrefs /\
    (length (National.distinct (National.clean_postcode <$> texts))
       <= length hrefs)%nat.
Proof.
  intros Hd Hs Hl Ht.
  destruct (find_branch_postcodes_run web st latency status dir hrefs texts
              Hd Hs Hl Ht)
    as (st' & requests & E & Sv & D & _ & T & F & L & Le).
  exists st', requests. repeat (split; [assumption|]). exact Le.
Qed.

(** X17 on the server [four_branches]: five requests, four postcodes
    logged as extracted, two returned. *)
Lemma discovery_succeeds_witness :
  exists st' pcs,
    National.find_branch_postcodes Fixtures.four_branches
      (init National.name 5) = (Ok pcs, st') /\
    served st' = 5%nat /\
    last (trace st') = Some (Logged (PostcodesExtracted 4)) /\
    length pcs = 2%nat.
Proof.
  destruct (discovery_succeeds Fixtures.four_branches (init National.name 5)
              0 200%Z
              (Fixtures.directory ["branch/a"; "branch/b"; "branch/c";
                                   "branch/d"])
              ["branch/a"; "branch/b"; "branch/c"; "branch/d"]
              ["LS1 4AP"; " LS1 4AP "; "LS14AP"; "M1 1AE"]
              eq_refl eq_refl eq_refl)
    as (st' & requests & E & Sv & _ & T & _ & _ & _).
  - repeat (constructor; [eexists _, _, _; repeat split; reflexivity|]).
    constructor.
  - exists st', (National.distinct
                   (National.clean_postcode <$>
                      ["LS1 4AP"; " LS1 4AP "; "LS14AP"; "M1 1AE"])).
    split; [exact E|]. split; [exact Sv|]. split.
    + rewrite T. rewrite !app_assoc. apply last_snoc.
    + vm_compute. reflexivity.
Defined.



End NationalRuns.

(* ================================================================== *)
(** * Site A: a footer with links and no list item *)
(* ================================================================== *)

Module PagingMore.

Import Base Relations Steps Dexel Paging PagingFacts.

Section OverASite.

Context {page : Type}.
Variable site : Site page.

(** X19.  The third test of the loop reads the [class] of the last
    [li] of the footer without checking that there is one.  On a page
    whose footer has links, the last of them not the jump to the last
    page, and no [li] at all, the turn parses and stores the page and
    then raises the browser's [TimeoutError]: the rows of the page stay
    stored, nothing is clicked, and the loop does not go on. *)
Theorem footer_without_list_items_times_out
    c inputs p text fuel (s : Session page) :
  contexts s !! c = Some p ->
  readable (content site p) ->
  last (links (footer site p)) = Some text ->
  Text.contains "Last" (Text.strip text) = false ->
  items (footer site p) = [] ->
  exists s',
    paginate site (S fuel) c inputs s = (Raise TimeoutError, s') /\
    contexts s' = contexts s /\
    db (machine s') =
      db (machine s) ++ page_rows site (website (machine s)) p /\
    trace (machine s') =
      trace (machine s) ++
      ReadContent c ::
      (line_of (website (machine s)) <$>
         observations (dexel_products (content site p))).
Proof.
  intros Hc Hr Hl Hn Hi.
  destruct (turn_run site c inputs p s Hc Hr) as (s1 & Hc1 & Hg & E).
  assert (N : next_action (footer site p) = NoListItem).
  { unfold next_action. now rewrite Hl, Hn, Hi. }
  exists s1. rewrite E, N. destruct Hg as (_ & _ & D & T).
  now repeat split.
Qed.

End OverASite.

(** X19 on the site [bare_footer], whose footer has two links and no
    list item. *)
Lemma no_list_item_witness :
  exists s',
    paginate MoreFixtures.bare_footer 3 0 (205, 55, 16)%Z
      MoreFixtures.on_tab_one = (Raise TimeoutError, s') /\
    length (db (machine s')) = 1%nat /\
    trace (machine s') =
      [ReadContent 0;
       Logged (AddingTyre "Dexel" "Michelin" "Pilot sport 4" "205/55 R16"
                 "Summer" "120.00")].
Proof.
  destruct (footer_without_list_items_times_out MoreFixtures.bare_footer
              0%nat (205, 55, 16)%Z 1%nat "2" 2%nat MoreFixtures.on_tab_one
              (lookup_insert_eq _ _ _))
    as (s' & E & _ & D & T).
  - constructor; [|constructor]. eexists. reflexivity.
  - reflexivity.
  - reflexivity.
  - reflexivity.
  - exists s'. split; [exact E|]. split; [now rewrite D | exact T].
Defined.

End PagingMore.
